(** * License-plate validation service (src/api/license_plate.py)

    A shallow embedding of [validate_russian_plate] and of the three
    plate-accepting endpoints with their shared [validation_stats]
    counters, together with the properties of the classification
    contract.

    Python strings are sequences of Unicode code points: a [str] is a
    list of code points, so that [len], slicing and the Cyrillic
    character classes count characters and not bytes. *)

From Stdlib Require Import List NArith ZArith Bool Lia String Ascii Permutation.
Import ListNotations.

Set Implicit Arguments.

Local Open Scope N_scope.

(** ** Strings as code points *)

Definition char := N.
Definition str := list char.

Module Utf8.

(** Decoder of the UTF-8 literals of this file into code points, so that
    the source's literals can be written as they are in the source. *)

Definition cont (b : N) : N := b - 128.

Fixpoint decode_bytes (fuel : nat) (bs : list N) : str :=
  match fuel with
  | O => []
  | S fuel' =>
      match bs with
      | [] => []
      | b0 :: r0 =>
          if b0 <? 0x80 then b0 :: decode_bytes fuel' r0
          else if b0 <? 0xE0 then
            match r0 with
            | b1 :: r1 => ((b0 - 0xC0) * 64 + cont b1) :: decode_bytes fuel' r1
            | _ => []
            end
          else if b0 <? 0xF0 then
            match r0 with
            | b1 :: b2 :: r2 =>
                ((b0 - 0xE0) * 4096 + cont b1 * 64 + cont b2)
                  :: decode_bytes fuel' r2
            | _ => []
            end
          else
            match r0 with
            | b1 :: b2 :: b3 :: r3 =>
                ((b0 - 0xF0) * 262144 + cont b1 * 4096 + cont b2 * 64 + cont b3)
                  :: decode_bytes fuel' r3
            | _ => []
            end
      end
  end.

Definition bytes_of (s : string) : list N :=
  List.map N_of_ascii (list_ascii_of_string s).

Definition decode (s : string) : str :=
  let bs := bytes_of s in decode_bytes (List.length bs) bs.

End Utf8.

Abbreviation u8 := Utf8.decode.

(** Code points the source names. *)
Definition SPACE : char := 0x20.
Definition HYPHEN : char := 0x2D.
Definition COMMA : char := 0x2C.
Definition NEWLINE : char := 0x0A.
(** CYRILLIC CAPITAL LETTER DE, the literal of the diplomatic pattern. *)
Definition DE : char := 0x414.
(** CYRILLIC CAPITAL LETTER TE, the literal of the transit pattern. *)
Definition TE : char := 0x422.

(** ** The Unicode tables of the Python runtime

    [str.upper], [str.strip] and the regular-expression class [\d] read the
    interpreter's Unicode database, which is not part of the repository
    and changes with the interpreter's version.  The development is
    stated over any database that agrees with Unicode on Basic Latin and
    on the letters U+0410 to U+044F of the Cyrillic block, the only
    parts the patterns touch. *)

Class UnicodeDB := {
  (** full upper-case mapping of one code point (it may be several) *)
  toupper_full : char -> str;
  (** general category Nd, the class [\d] of [re] on [str] patterns *)
  isdecimal : char -> bool;
  (** [str.isspace] on one character, what [strip()] removes *)
  isspace : char -> bool;
  toupper_ascii : forall c, c < 128 ->
    toupper_full c = [if (97 <=? c) && (c <=? 122) then c - 32 else c];
  toupper_cyrillic_capital : forall c, 0x410 <= c <= 0x42F ->
    toupper_full c = [c];
  toupper_cyrillic_small : forall c, 0x430 <= c <= 0x44F ->
    toupper_full c = [c - 32];
  isdecimal_ascii : forall c, c < 128 ->
    isdecimal c = (48 <=? c) && (c <=? 57);
  isdecimal_cyrillic : forall c, 0x400 <= c <= 0x4FF -> isdecimal c = false
}.

(** ** Regular expressions of [re], as far as the patterns use them *)

Inductive regex :=
| Bol                                   (* ^ *)
| Eol                                   (* $ *)
| Lit (c : char)                        (* a literal character *)
| CharSet (cs : str)                    (* [...] *)
| Digit                                 (* \d *)
| Rep (r : regex) (lo hi : nat)         (* r{lo,hi} *)
| Cat (r1 r2 : regex).

(** A position of the matcher: how many characters were consumed and what
    is left of the subject. *)
Definition cursor := (nat * str)%type.

Definition mem (c : char) (cs : str) : bool := existsb (N.eqb c) cs.

Section Matcher.
Context {U : UnicodeDB}.

Definition step_char (p : char -> bool) (cur : cursor) (k : cursor -> bool) : bool :=
  match snd cur with
  | [] => false
  | c :: rest => if p c then k (S (fst cur), rest) else false
  end.

(** Backtracking matcher in continuation style.  [$] without MULTILINE
    holds at the end of the subject and just before a newline that ends
    it; [r{lo,hi}] is greedy. *)
Fixpoint run (r : regex) (cur : cursor) (k : cursor -> bool) {struct r} : bool :=
  match r with
  | Bol => match fst cur with O => k cur | S _ => false end
  | Eol => match snd cur with
           | [] => k cur
           | [c] => if c =? NEWLINE then k cur else false
           | _ => false
           end
  | Lit c => step_char (N.eqb c) cur k
  | CharSet cs => step_char (fun c => mem c cs) cur k
  | Digit => step_char isdecimal cur k
  | Rep r' lo hi =>
      (fix rep (lo hi : nat) (cur : cursor) {struct hi} : bool :=
         match hi with
         | O => match lo with O => k cur | S _ => false end
         | S hi' =>
             run r' cur (fun cur' => rep (Nat.pred lo) hi' cur')
             || match lo with O => k cur | S _ => false end
         end) lo hi cur
  | Cat r1 r2 => run r1 cur (fun cur' => run r2 cur' k)
  end.

(** [re.match(pattern, s)] as a truth value. *)
Definition re_match (pattern : regex) (s : str) : bool :=
  run pattern (O, s) (fun _ => true).

End Matcher.

(** The concatenation [r rs...] of the items of a pattern. *)
Fixpoint cat (r : regex) (rs : list regex) : regex :=
  match rs with
  | [] => r
  | r' :: rs' => Cat r (cat r' rs')
  end.

(** The twelve plate letters of the class [АВЕКМНОРСТУХ]. *)
Definition plate_letters : str := Eval cbv in u8 "АВЕКМНОРСТУХ".

Definition LETTER : regex := CharSet plate_letters.

(** ** Python values the handlers use *)

Inductive exn := IndexError.

(** The result of running Python code: a value, or a raised exception. *)
Inductive outcome (A : Type) :=
| Return (a : A)
| Raise (e : exn).
Arguments Return {A} a.
Arguments Raise {A} e.

Definition bind {A B} (m : outcome A) (f : A -> outcome B) : outcome B :=
  match m with
  | Return a => f a
  | Raise e => Raise e
  end.

Notation "x <- m ;; k" := (bind m (fun x => k))
  (at level 61, m at next level, right associativity).

(** [str(e)] *)
Definition exn_text (e : exn) : str :=
  match e with IndexError => u8 "list index out of range" end.

(** [s.replace(c, '')] for a one-character [c]. *)
Definition remove_char (c : char) (s : str) : str :=
  filter (fun x => negb (x =? c)) s.

(** [s[-n:]] for a positive [n]: the last [n] characters, all of [s] when
    it is shorter. *)
Definition last_chars (n : nat) (s : str) : str :=
  skipn (List.length s - n) s.

(** [s.split(sep)] for a one-character separator. *)
Fixpoint split (sep : char) (s : str) : list str :=
  match s with
  | [] => [[]]
  | c :: rest =>
      if c =? sep then [] :: split sep rest
      else match split sep rest with
           | [] => [[c]]
           | w :: ws => (c :: w) :: ws
           end
  end.

(** [l[i]] *)
Definition index {A} (l : list A) (i : nat) : outcome A :=
  match nth_error l i with
  | Some a => Return a
  | None => Raise IndexError
  end.

(** ** The classifier *)

Inductive plate_kind :=
| Standard | Taxi | Trailer | Motorcycle | Transit | Diplomatic.

Definition plate_kind_eqb (a b : plate_kind) : bool :=
  match a, b with
  | Standard, Standard | Taxi, Taxi | Trailer, Trailer
  | Motorcycle, Motorcycle | Transit, Transit | Diplomatic, Diplomatic => true
  | _, _ => false
  end.

(** The keys of [patterns], as they are interpolated into the message. *)
Definition type_name (t : plate_kind) : str :=
  match t with
  | Standard => u8 "standard"
  | Taxi => u8 "taxi"
  | Trailer => u8 "trailer"
  | Motorcycle => u8 "motorcycle"
  | Transit => u8 "transit"
  | Diplomatic => u8 "diplomatic"
  end.

(** Lines 51-58, the values of [patterns]:
    - standard   ^[АВЕКМНОРСТУХ]\d{3}[АВЕКМНОРСТУХ]{2}\d{2,3}$
    - taxi       ^[АВЕКМНОРСТУХ]{2}\d{3}\d{2,3}$
    - trailer    ^[АВЕКМНОРСТУХ]{2}\d{4}\d{2,3}$
    - motorcycle ^\d{4}[АВЕКМНОРСТУХ]{2}\d{2,3}$
    - transit    ^Т\d{5}[АВЕКМНОРСТУХ]$
    - diplomatic ^\d{3,4}Д\d{2,3}$ *)
Definition re_standard : regex :=
  cat Bol [LETTER; Rep Digit 3 3; Rep LETTER 2 2; Rep Digit 2 3; Eol].
Definition re_taxi : regex :=
  cat Bol [Rep LETTER 2 2; Rep Digit 3 3; Rep Digit 2 3; Eol].
Definition re_trailer : regex :=
  cat Bol [Rep LETTER 2 2; Rep Digit 4 4; Rep Digit 2 3; Eol].
Definition re_motorcycle : regex :=
  cat Bol [Rep Digit 4 4; Rep LETTER 2 2; Rep Digit 2 3; Eol].
Definition re_transit : regex :=
  cat Bol [Lit TE; Rep Digit 5 5; LETTER; Eol].
Definition re_diplomatic : regex :=
  cat Bol [Rep Digit 3 4; Lit DE; Rep Digit 2 3; Eol].

(** The dict [patterns]; a dict is iterated in insertion order. *)
Definition patterns : list (plate_kind * regex) :=
  [ (Standard, re_standard);
    (Taxi, re_taxi);
    (Trailer, re_trailer);
    (Motorcycle, re_motorcycle);
    (Transit, re_transit);
    (Diplomatic, re_diplomatic) ].

(** The dict [validate_russian_plate] returns. *)
Record result := {
  is_valid : bool;
  plate_type : option plate_kind;
  region_code : option str;
  message : str
}.

Definition valid_message (t : plate_kind) : str :=
  (u8 "Номерной знак корректен (тип: " ++ type_name t ++ u8 ")")%list.

Definition invalid_message : str := u8 "Некорректный формат номерного знака".

Definition invalid_result : result :=
  {| is_valid := false;
     plate_type := None;
     region_code := None;
     message := invalid_message |}.

Section Classifier.
Context {U : UnicodeDB}.

(** [s.upper()] maps every character through the full case mapping. *)
Definition upper (s : str) : str := flat_map toupper_full s.

(** Line 48: [upper()], then [replace] of the space by nothing, then
    [replace] of the hyphen by nothing. *)
Definition normalize (s : str) : str :=
  remove_char HYPHEN (remove_char SPACE (upper s)).

(** Lines 63-72: the region code of a plate that matched [t]. *)
Definition extract_region (t : plate_kind) (plate_number : str)
  : outcome (option str) :=
  match t with
  | Standard =>
      Return (Some (if (List.length plate_number =? 8)%nat
                    then last_chars 2 plate_number
                    else last_chars 3 plate_number))
  | Taxi | Trailer | Motorcycle =>
      Return (Some (if (List.length plate_number <=? 8)%nat
                    then last_chars 2 plate_number
                    else last_chars 3 plate_number))
  | Diplomatic =>
      r <- index (split DE plate_number) 1 ;; Return (Some r)
  | Transit => Return None
  end.

(** Lines 60-86: the loop over [patterns.items()] and the fall-through. *)
Fixpoint classify_loop (items : list (plate_kind * regex)) (plate_number : str)
  : outcome result :=
  match items with
  | [] => Return invalid_result
  | (t, pattern) :: items' =>
      if re_match pattern plate_number then
        region <- extract_region t plate_number ;;
        Return {| is_valid := true;
                  plate_type := Some t;
                  region_code := region;
                  message := valid_message t |}
      else classify_loop items' plate_number
  end.

Definition validate_russian_plate (plate_number : str) : outcome result :=
  classify_loop patterns (normalize plate_number).

End Classifier.

(** The Unicode tables restricted to Basic Latin and the letters of the
    Cyrillic block: every other code point is taken caseless, not a digit
    and not a space.  It is the database the examples are run on. *)
Definition basic_toupper (c : char) : str :=
  if c <? 128 then [if (97 <=? c) && (c <=? 122) then c - 32 else c]
  else if (0x430 <=? c) && (c <=? 0x44F) then [c - 32]
  else if (0x450 <=? c) && (c <=? 0x45F) then [c - 80]
  else [c].
Definition basic_isdecimal (c : char) : bool := (48 <=? c) && (c <=? 57).
Definition basic_isspace (c : char) : bool :=
  ((9 <=? c) && (c <=? 13)) || ((28 <=? c) && (c <=? 32)).

Definition basic_db : UnicodeDB.
Proof.
  refine {| toupper_full := basic_toupper;
            isdecimal := basic_isdecimal;
            isspace := basic_isspace |};
    unfold basic_toupper, basic_isdecimal; intros c Hc.
  - apply N.ltb_lt in Hc. now rewrite Hc.
  - destruct (N.ltb_spec c 128); [lia|].
    destruct (N.leb_spec 0x430 c); [lia|]. cbn.
    destruct (N.leb_spec 0x450 c); [lia|]. reflexivity.
  - destruct (N.ltb_spec c 128); [lia|].
    destruct (N.leb_spec 0x430 c); [|lia].
    destruct (N.leb_spec c 0x44F); [|lia]. reflexivity.
  - reflexivity.
  - destruct (N.leb_spec 48 c); [|reflexivity].
    destruct (N.leb_spec c 57); [lia|reflexivity].
Defined.

(** ** The endpoints and the counters *)

Local Open Scope Z_scope.

(** The module-level dict [validation_stats]. *)
Record stats := {
  total : Z;
  valid : Z;
  invalid : Z
}.

(** Line 34: the value the dict has when the module is loaded. *)
Definition validation_stats : stats :=
  {| total := 0; valid := 0; invalid := 0 |}.

Module Response.
(** [LicensePlateResponse] *)
Record t := {
  plate_number : str;
  is_valid : bool;
  region_code : option str;
  plate_type : option plate_kind;
  message : str
}.
End Response.

(** [ValidationStats] *)
Record ValidationStats := {
  total_validated : Z;
  valid_plates : Z;
  invalid_plates : Z
}.

(** What a handler returns or raises.  The framework then serializes the
    returned value; that step is outside this development. *)
Inductive http :=
| Plate200 (r : Response.t)
| Plates200 (rs : list Response.t)
| Stats200 (s : ValidationStats)
| RequestValidationError                    (* answered 422 by app.py *)
| HTTPException (status_code : Z) (detail : str).

Inductive request :=
| PostValidate (plate_number : str)          (* POST /validate *)
| GetPlate (plate_number : str)              (* GET /{plate_number} *)
| GetPlates (plates : str)                   (* GET /?plates=... *)
| GetStats.                                  (* GET /stats/validation *)

(** The statistics block the three handlers repeat. *)
Definition update_stats (validation_result : result) (st : stats) : stats :=
  let st1 := {| total := total st + 1; valid := valid st; invalid := invalid st |} in
  if is_valid validation_result
  then {| total := total st1; valid := valid st1 + 1; invalid := invalid st1 |}
  else {| total := total st1; valid := valid st1; invalid := invalid st1 + 1 |}.

Section Endpoints.
Context {U : UnicodeDB}.

Fixpoint lstrip (s : str) : str :=
  match s with
  | [] => []
  | c :: rest => if isspace c then lstrip rest else s
  end.

(** [s.strip()] *)
Definition strip (s : str) : str := rev (lstrip (rev (lstrip s))).

(** [LicensePlateResponse(plate_number=..., **validation_result)] *)
Definition make_response (plate : str) (r : result) : Response.t :=
  {| Response.plate_number := plate;
     Response.is_valid := is_valid r;
     Response.region_code := region_code r;
     Response.plate_type := plate_type r;
     Response.message := message r |}.

(** The field constraints and the validator of [LicensePlateRequest]:
    [None] is the validation error. *)
Definition validate_plate_number (v : str) : option str :=
  if ((List.length v <? 1) || (20 <? List.length v))%nat then None
  else match strip v with
       | [] => None
       | _ => Some (strip v)
       end.

(** Lines 95-115, the body of [validate_license_plate] on a validated
    request: the [try] block and its [except]. *)
Definition validate_license_plate_body (plate_number : str) (st : stats)
  : http * stats :=
  match validate_russian_plate plate_number with
  | Return validation_result =>
      let st' := update_stats validation_result st in
      (Plate200 (make_response (normalize plate_number) validation_result), st')
  | Raise _ =>
      (HTTPException 500 (u8 "Ошибка при обработке номерного знака"), st)
  end.

Definition validate_license_plate (body : str) (st : stats) : http * stats :=
  match validate_plate_number body with
  | None => (RequestValidationError, st)
  | Some plate_number => validate_license_plate_body plate_number st
  end.

Definition get_license_plate_info (plate_number : str) (st : stats)
  : http * stats :=
  match strip plate_number with
  | [] => (HTTPException 400 (u8 "Номерной знак не может быть пустым"), st)
  | _ => validate_license_plate_body plate_number st
  end.

(** Line 159: the comprehension over [plates.split(',')]. *)
Definition plate_list_of (plates : str) : list str :=
  map strip
    (filter (fun plate => negb (Nat.eqb (List.length (strip plate)) 0))
            (split COMMA plates)).

(** Lines 168-189: the loop of [validate_multiple_plates]. *)
Fixpoint validate_each (plate_list : list str) (results : list Response.t)
  (st : stats) : list Response.t * stats :=
  match plate_list with
  | [] => (results, st)
  | plate :: rest =>
      match validate_russian_plate plate with
      | Return validation_result =>
          validate_each rest
            (results ++ [make_response (normalize plate) validation_result])
            (update_stats validation_result st)
      | Raise e =>
          validate_each rest
            (results ++
               [ {| Response.plate_number := plate;
                    Response.is_valid := false;
                    Response.region_code := None;
                    Response.plate_type := None;
                    Response.message :=
                      (u8 "Ошибка при обработке: " ++ exn_text e)%list |} ])
            st
      end
  end.

Definition validate_multiple_plates (plates : str) (st : stats)
  : http * stats :=
  let plate_list := plate_list_of plates in
  match plate_list with
  | [] =>
      (HTTPException 400 (u8 "Необходимо указать хотя бы один номерной знак"), st)
  | _ =>
      if (10 <? List.length plate_list)%nat then
        (HTTPException 400 (u8 "Максимум 10 номерных знаков за раз"), st)
      else
        let '(results, st') := validate_each plate_list [] st in
        (Plates200 results, st')
  end.

Definition get_validation_stats (st : stats) : http * stats :=
  (Stats200 {| total_validated := total st;
               valid_plates := valid st;
               invalid_plates := invalid st |}, st).

Definition handle (req : request) (st : stats) : http * stats :=
  match req with
  | PostValidate body => validate_license_plate body st
  | GetPlate plate_number => get_license_plate_info plate_number st
  | GetPlates plates => validate_multiple_plates plates st
  | GetStats => get_validation_stats st
  end.

(** One request served to completion. *)
Definition step (st st' : stats) : Prop :=
  exists req, snd (handle req st) = st'.

(** The states of the counters after any sequence of requests since the
    module was loaded. *)
Inductive reachable : stats -> Prop :=
| reach_init : reachable validation_stats
| reach_step st st' : reachable st -> step st st' -> reachable st'.

(** The counters after serving the requests of a list in order. *)
Fixpoint serve (reqs : list request) (st : stats) : stats :=
  match reqs with
  | [] => st
  | req :: rest => serve rest (snd (handle req st))
  end.

End Endpoints.

(** ** The region rules the way the specification words them *)

Local Close Scope Z_scope.
Local Open Scope nat_scope.

(** "last 2 chars if total length is 8, else last 3 chars" *)
Definition region_exactly_8 (p : str) : str :=
  if List.length p =? 8 then last_chars 2 p else last_chars 3 p.

(** "last 2 chars if total length <= 8, else last 3 chars" *)
Definition region_at_most_8 (p : str) : str :=
  if List.length p <=? 8 then last_chars 2 p else last_chars 3 p.

(** "substring after the 'D' literal": what follows the first occurrence. *)
Fixpoint substring_after (sep : char) (p : str) : str :=
  match p with
  | [] => []
  | c :: rest => if (c =? sep)%N then rest else substring_after sep rest
  end.

(** The region-extraction column of the pattern table. *)
Definition spec_region (t : plate_kind) (p : str) : option str :=
  match t with
  | Standard => Some (region_exactly_8 p)
  | Taxi | Trailer | Motorcycle => Some (region_at_most_8 p)
  | Transit => None
  | Diplomatic => Some (substring_after DE p)
  end.

(** The position of a type in the table's order. *)
Definition rank (t : plate_kind) : nat :=
  match t with
  | Standard => 0 | Taxi => 1 | Trailer => 2
  | Motorcycle => 3 | Transit => 4 | Diplomatic => 5
  end.

Definition pattern (t : plate_kind) : regex :=
  match t with
  | Standard => re_standard | Taxi => re_taxi | Trailer => re_trailer
  | Motorcycle => re_motorcycle | Transit => re_transit
  | Diplomatic => re_diplomatic
  end.

Definition all_kinds : list plate_kind :=
  [Standard; Taxi; Trailer; Motorcycle; Transit; Diplomatic].

Definition matches {U : UnicodeDB} (t : plate_kind) (p : str) : bool :=
  re_match (pattern t) p.

Definition is_ascii (s : str) : Prop := Forall (fun c => (c < 128)%N) s.

(** "increments total, and exactly one of valid/invalid" *)
Definition count_result (was_valid : bool) (st : stats) : stats :=
  if was_valid
  then {| total := total st + 1; valid := valid st + 1; invalid := invalid st |}
  else {| total := total st + 1; valid := valid st; invalid := invalid st + 1 |}.

(** The validity flags of the classification records of an answer. *)
Definition validities (answer : http) : list bool :=
  match answer with
  | Plate200 r => [Response.is_valid r]
  | Plates200 rs => map Response.is_valid rs
  | _ => []
  end.


(** ** The patterns as fixed shapes

    Every pattern is a finite union of fixed-width shapes; a shape is a
    word of character tests. *)

Local Open Scope N_scope.

Inductive tok :=
| L                 (* a plate letter *)
| D                 (* a decimal digit *)
| C (c : char).     (* this character *)

Definition tok_ok {U : UnicodeDB} (t : tok) (c : char) : bool :=
  match t with
  | L => mem c plate_letters
  | D => isdecimal c
  | C x => x =? c
  end.

(** [p] is the shape, possibly followed by one newline. *)
Fixpoint fits {U : UnicodeDB} (sh : list tok) (p : str) : bool :=
  match sh, p with
  | [], [] => true
  | [], [c] => c =? NEWLINE
  | t :: sh', c :: p' => if tok_ok t c then fits sh' p' else false
  | _, _ => false
  end.

Definition shapes (t : plate_kind) : list (list tok) :=
  match t with
  | Standard => [[L;D;D;D;L;L;D;D]; [L;D;D;D;L;L;D;D;D]]
  | Taxi => [[L;L;D;D;D;D;D]; [L;L;D;D;D;D;D;D]]
  | Trailer => [[L;L;D;D;D;D;D;D]; [L;L;D;D;D;D;D;D;D]]
  | Motorcycle => [[D;D;D;D;L;L;D;D]; [D;D;D;D;L;L;D;D;D]]
  | Transit => [[C TE;D;D;D;D;D;L]]
  | Diplomatic => [[D;D;D;C DE;D;D]; [D;D;D;C DE;D;D;D];
                   [D;D;D;D;C DE;D;D]; [D;D;D;D;C DE;D;D;D]]
  end.

Definition cyrillic (c : char) : bool := (0x400 <=? c) && (c <=? 0x4FF).

(** Whether two tests can accept one character; [true] when unknown. *)
Definition tok_compat (a b : tok) : bool :=
  match a, b with
  | L, L | D, D => true
  | L, D | D, L => false
  | L, C c | C c, L => mem c plate_letters
  | D, C c | C c, D => negb (cyrillic c)
  | C x, C y => x =? y
  end.

Definition may_be_newline (t : tok) : bool :=
  match t with C c => c =? NEWLINE | _ => false end.

(** Whether two shapes can fit one string. *)
Fixpoint compat (s1 s2 : list tok) : bool :=
  match s1, s2 with
  | [], [] => true
  | [], [t] => may_be_newline t
  | [t], [] => may_be_newline t
  | a :: s1', b :: s2' => tok_compat a b && compat s1' s2'
  | _, _ => false
  end.

(** The characters on which every database is the basic one. *)
Definition basic_char (c : char) : bool :=
  (c <? 128) || ((0x410 <=? c) && (c <=? 0x44F)).

(** The first type, in the table's order, whose pattern accepts [p]. *)
Definition first_match {U : UnicodeDB} (p : str) : option plate_kind :=
  find (fun t => matches t p) all_kinds.

(** The dict returned for a plate of type [t] with region [region]. *)
Definition valid_result (t : plate_kind) (region : option str) : result :=
  {| is_valid := true;
     plate_type := Some t;
     region_code := region;
     message := valid_message t |}.

(** A shape that cannot be met without a character outside Basic Latin. *)
Definition needs_cyrillic (sh : list tok) : bool :=
  existsb (fun t => match t with
                    | L => true
                    | D => false
                    | C c => 128 <=? c
                    end) sh.

(** The pairs of types whose patterns are not kept apart. *)
Definition overlap_allowed (t1 t2 : plate_kind) : bool :=
  match t1, t2 with
  | Taxi, Trailer | Trailer, Taxi => true
  | _, _ => plate_kind_eqb t1 t2
  end.

(** The invariant of the counters. *)
Definition consistent (st : stats) : Prop :=
  (total st = valid st + invalid st)%Z.

(** The least and the greatest length of a normalized string that is
    returned with the type [t]. *)
Definition length_range (t : plate_kind) : nat * nat :=
  match t with
  | Standard => (8, 10)
  | Taxi => (7, 9)
  | Trailer => (9, 10)
  | Motorcycle => (8, 10)
  | Transit => (7, 8)
  | Diplomatic => (6, 9)
  end%nat.

(** The characters a pattern can accept. *)
Definition plate_char {U : UnicodeDB} (c : char) : bool :=
  mem c plate_letters || isdecimal c || (c =? DE) || (c =? NEWLINE).

(** The classification records of an answer. *)
Definition records (answer : http) : list Response.t :=
  match answer with
  | Plate200 r => [r]
  | Plates200 rs => rs
  | _ => []
  end.

(** The answers given to the requests of a list served in order. *)
Fixpoint answers {U : UnicodeDB} (reqs : list request) (st : stats)
  : list http :=
  match reqs with
  | [] => []
  | req :: rest => fst (handle req st) :: answers rest (snd (handle req st))
  end.

(** How many of the flags are [b]. *)
Definition how_many (b : bool) (bs : list bool) : Z :=
  Z.of_nat (count_occ Bool.bool_dec bs b).

(** A string that neither begins nor ends with a whitespace character. *)
Definition trimmed {U : UnicodeDB} (p : str) : Prop :=
  match p with
  | [] => True
  | c :: _ => isspace c = false /\ isspace (last p c) = false
  end.

(** The record one turn of the batch loop appends for [plate]. *)
Definition record_of {U : UnicodeDB} (plate : str) : Response.t :=
  match validate_russian_plate plate with
  | Return validation_result =>
      make_response (normalize plate) validation_result
  | Raise e =>
      {| Response.plate_number := plate;
         Response.is_valid := false;
         Response.region_code := None;
         Response.plate_type := None;
         Response.message :=
           (u8 "Ошибка при обработке: " ++ exn_text e)%list |}
  end.

(** The plates a request has classified, in order. *)
Definition classified {U : UnicodeDB} (req : request) : list str :=
  match req with
  | PostValidate body =>
      match validate_plate_number body with
      | Some plate_number => [plate_number]
      | None => []
      end
  | GetPlate plate_number =>
      match strip plate_number with
      | [] => []
      | _ => [plate_number]
      end
  | GetPlates plates =>
      let plate_list := plate_list_of plates in
      if (10 <? List.length plate_list)%nat then [] else plate_list
  | GetStats => []
  end.

(** The upper-case form of a letter of Basic Latin or of the Cyrillic
    letters U+0430 to U+044F; every other character is itself. *)
Definition capital (c : char) : char :=
  (if ((97 <=? c) && (c <=? 122)) || ((0x430 <=? c) && (c <=? 0x44F))
   then c - 32 else c)%N.

(** Neither a space nor a hyphen. *)
Definition not_separator (c : char) : bool :=
  (negb (c =? SPACE) && negb (c =? HYPHEN))%N.

(** [region] is the last [n] characters of [p]. *)
Definition is_last (n : nat) (p region : str) : Prop :=
  exists pre, p = (pre ++ region)%list /\ List.length region = n.

(** [region] is what follows the first [sep] of [p]. *)
Definition is_after (sep : char) (p region : str) : Prop :=
  exists pre, p = (pre ++ sep :: region)%list /\ ~ In sep pre.

(** The region-extraction column of the pattern table, said of the
    characters of the plate and not through the slicing of the code. *)
Definition region_rule (t : plate_kind) (p : str) (region : option str)
  : Prop :=
  match t with
  | Standard =>
      exists reg, region = Some reg /\
        is_last (if (List.length p =? 8)%nat then 2 else 3) p reg
  | Taxi | Trailer | Motorcycle =>
      exists reg, region = Some reg /\
        is_last (if (List.length p <=? 8)%nat then 2 else 3) p reg
  | Transit => region = None
  | Diplomatic =>
      exists reg, region = Some reg /\ is_after DE p reg /\ ~ In DE reg
  end.

(** Whether the classifier finds [plate] valid. *)
Definition plate_is_valid {U : UnicodeDB} (plate : str) : bool :=
  match validate_russian_plate plate with
  | Return validation_result => is_valid validation_result
  | Raise _ => false
  end.

(** * Properties *)

Section Patterns.
Context {U : UnicodeDB}.

Ltac crunch :=
  cbn [run cat step_char fst snd Nat.pred LETTER fits tok_ok existsb shapes
       pattern re_standard re_taxi re_trailer re_motorcycle re_transit
       re_diplomatic];
  repeat (match goal with
          | |- ?x = ?x => reflexivity
          | |- context [if ?b then _ else _] => destruct b eqn:?
          | |- context [orb ?b _] => destruct b eqn:?
          end; cbn [orb andb]);
  try reflexivity; try congruence.

(** The matcher accepts exactly the strings of the pattern's shapes. *)
Lemma matches_shapes t p :
  matches t p = existsb (fun sh => fits sh p) (shapes t).
Proof.
  unfold matches, re_match.
  destruct t.
  all: do 11 (destruct p as [|? p]; [ crunch | ]); crunch.
Qed.

Lemma matches_fits t p :
  matches t p = true -> exists sh, In sh (shapes t) /\ fits sh p = true.
Proof.
  rewrite matches_shapes. intros H. apply existsb_exists in H. exact H.
Qed.

Lemma fits_matches t sh p :
  In sh (shapes t) -> fits sh p = true -> matches t p = true.
Proof.
  intros Hin Hf. rewrite matches_shapes. apply existsb_exists. eauto.
Qed.

Lemma letter_range c :
  mem c plate_letters = true -> 0x410 <= c <= 0x425.
Proof.
  unfold mem, plate_letters. cbn [existsb]. intros H.
  repeat (apply orb_true_iff in H; destruct H as [H|H]);
    try discriminate; apply N.eqb_eq in H; subst c; lia.
Qed.

Lemma letter_not_digit c :
  mem c plate_letters = true -> isdecimal c = false.
Proof.
  intros H. apply letter_range in H. apply isdecimal_cyrillic. lia.
Qed.

Lemma newline_not_digit : isdecimal NEWLINE = false.
Proof. rewrite isdecimal_ascii by (unfold NEWLINE; lia). reflexivity. Qed.

Lemma digit_not_DE c : isdecimal c = true -> (c =? DE) = false.
Proof.
  intros H. apply N.eqb_neq. intros ->.
  rewrite isdecimal_cyrillic in H by (unfold DE; lia). discriminate.
Qed.

Lemma tok_compat_sound a b c :
  tok_ok a c = true -> tok_ok b c = true -> tok_compat a b = true.
Proof.
  destruct a as [| |x], b as [| |y]; cbn; intros Ha Hb; try reflexivity.
  - rewrite (letter_not_digit _ Ha) in Hb. discriminate.
  - apply N.eqb_eq in Hb. subst. exact Ha.
  - rewrite (letter_not_digit _ Hb) in Ha. discriminate.
  - apply N.eqb_eq in Hb. subst. unfold cyrillic.
    destruct ((0x400 <=? c) && (c <=? 0x4FF)) eqn:E; [|reflexivity].
    apply andb_true_iff in E. destruct E as [E1 E2].
    apply N.leb_le in E1, E2.
    rewrite isdecimal_cyrillic in Ha by lia. discriminate.
  - apply N.eqb_eq in Ha. subst. exact Hb.
  - apply N.eqb_eq in Ha. subst. unfold cyrillic.
    destruct ((0x400 <=? c) && (c <=? 0x4FF)) eqn:E; [|reflexivity].
    apply andb_true_iff in E. destruct E as [E1 E2].
    apply N.leb_le in E1, E2.
    rewrite isdecimal_cyrillic in Hb by lia. discriminate.
  - apply N.eqb_eq in Ha, Hb. subst. apply N.eqb_refl.
Qed.

Lemma tok_newline t : tok_ok t NEWLINE = true -> may_be_newline t = true.
Proof.
  destruct t; cbn; intros H.
  - discriminate.
  - rewrite newline_not_digit in H. discriminate.
  - apply N.eqb_eq in H. subst. reflexivity.
Qed.

(** Two shapes that fit one string are compatible. *)
Lemma compat_sound s1 : forall s2 p,
  fits s1 p = true -> fits s2 p = true -> compat s1 s2 = true.
Proof.
  induction s1 as [|a s1 IH]; intros s2 p H1 H2.
  - destruct p as [|c [|c' p]]; cbn in H1; try discriminate.
    + destruct s2; [reflexivity | discriminate].
    + apply N.eqb_eq in H1. subst c.
      destruct s2 as [|b s2]; [reflexivity|].
      cbn in H2. destruct (tok_ok b NEWLINE) eqn:E; [|discriminate].
      destruct s2; [|discriminate]. cbn. now apply tok_newline.
  - destruct p as [|c p]; [discriminate|].
    cbn in H1. destruct (tok_ok a c) eqn:Ea; [|discriminate].
    destruct s2 as [|b s2].
    + cbn in H2. destruct p; [|discriminate].
      apply N.eqb_eq in H2. subst c.
      destruct s1; [|discriminate]. cbn. now apply tok_newline.
    + cbn in H2. destruct (tok_ok b c) eqn:Eb; [|discriminate].
      cbn [compat]. rewrite (tok_compat_sound _ _ _ Ea Eb), (IH _ _ H1 H2).
      destruct s1, s2; reflexivity.
Qed.

(** Apart from taxi and trailer, no two patterns accept one string. *)
Lemma matches_disjoint t1 t2 p :
  matches t1 p = true -> matches t2 p = true -> overlap_allowed t1 t2 = true.
Proof.
  intros H1 H2.
  apply matches_fits in H1. destruct H1 as (s1 & In1 & F1).
  apply matches_fits in H2. destruct H2 as (s2 & In2 & F2).
  pose proof (compat_sound _ _ _ F1 F2) as Hc.
  destruct t1, t2; try reflexivity; cbn in In1, In2;
    repeat match goal with
           | H : _ \/ _ |- _ => destruct H
           | H : False |- _ => destruct H
           end; subst; vm_compute in Hc; discriminate Hc.
Qed.

Lemma fits_length sh : forall p,
  fits sh p = true ->
  List.length p = List.length sh \/ List.length p = S (List.length sh).
Proof.
  induction sh as [|a sh IH]; intros p H.
  - destruct p as [|c [|c' p]]; cbn in H; try discriminate; auto.
  - destruct p as [|c p]; [discriminate|].
    cbn in H. destruct (tok_ok a c); [|discriminate].
    cbn. destruct (IH _ H); lia.
Qed.

End Patterns.

Section Classification.
Context {U : UnicodeDB}.

Lemma fits_cons a sh p :
  fits (a :: sh) p = true ->
  exists c p', p = c :: p' /\ tok_ok a c = true /\ fits sh p' = true.
Proof.
  destruct p as [|c p]; [discriminate|]. cbn.
  destruct (tok_ok a c) eqn:E; [|discriminate]. eauto.
Qed.

Lemma fits_nil p : fits [] p = true -> p = [] \/ p = [NEWLINE].
Proof.
  destruct p as [|c [|c' p]]; cbn; try discriminate; auto.
  intros H. apply N.eqb_eq in H. subst. auto.
Qed.

(** Takes a string that fits a given shape apart into its characters. *)
Ltac open_fits H :=
  repeat (let c := fresh "c" in
          let q := fresh "q" in
          let Hc := fresh "Hc" in
          apply fits_cons in H; destruct H as (c & q & -> & Hc & H);
          cbn [tok_ok] in Hc);
  apply fits_nil in H; destruct H as [-> | ->].

Ltac digits_not_DE :=
  repeat match goal with
         | H : isdecimal ?c = true |- _ =>
             rewrite (digit_not_DE _ H); clear H
         | H : (DE =? ?c) = true |- _ =>
             apply N.eqb_eq in H; subst c
         end.

(** Line 72 does not raise on a diplomatic plate, and gives what follows
    the letter. *)
Lemma diplomatic_split p :
  matches Diplomatic p = true ->
  index (split DE p) 1 = Return (substring_after DE p).
Proof.
  intros H. apply matches_fits in H. destruct H as (sh & Hin & Hf).
  cbn in Hin.
  repeat match goal with
         | H : _ \/ _ |- _ => destruct H
         | H : False |- _ => destruct H
         end; subst sh; open_fits Hf;
    unfold index; cbn [split substring_after]; digits_not_DE;
    reflexivity.
Qed.

(** The code's region extraction is the table's column. *)
Lemma extract_region_spec t p :
  matches t p = true -> extract_region t p = Return (spec_region t p).
Proof.
  destruct t; intros H; try reflexivity.
  cbn. rewrite (diplomatic_split _ H). reflexivity.
Qed.

(** The loop over [patterns] stops at the first type that matches. *)
Lemma classify_loop_first_match p :
  classify_loop patterns p =
  match first_match p with
  | Some t => region <- extract_region t p ;; Return (valid_result t region)
  | None => Return invalid_result
  end.
Proof.
  unfold first_match, all_kinds, patterns, matches.
  cbn [classify_loop find pattern].
  repeat match goal with
         | |- context [re_match ?r p] => destruct (re_match r p)
         end; reflexivity.
Qed.

Lemma first_match_some p t :
  first_match p = Some t ->
  matches t p = true /\
  forall t', (rank t' < rank t)%nat -> matches t' p = false.
Proof.
  unfold first_match, all_kinds. cbn [find]. intros H.
  repeat match type of H with
         | context [if matches ?k p then _ else _] =>
             destruct (matches k p) eqn:?; cbn iota in H
         end;
    try discriminate H; injection H as <-; (split; [assumption|]);
    intros [] Hr; cbn in Hr; try lia; assumption.
Qed.

Lemma first_match_none p :
  first_match p = None -> forall t, matches t p = false.
Proof.
  unfold first_match. intros H t.
  apply (find_none _ _ H). destruct t; cbn; tauto.
Qed.

Lemma first_match_le p t :
  matches t p = true ->
  exists t0, first_match p = Some t0 /\ (rank t0 <= rank t)%nat.
Proof.
  intros H. destruct (first_match p) as [t0|] eqn:E.
  - exists t0. split; [reflexivity|].
    destruct (first_match_some _ E) as [_ Hmin].
    destruct (Nat.le_gt_cases (rank t0) (rank t)) as [Hle|Hgt]; [exact Hle|].
    rewrite (Hmin _ Hgt) in H. discriminate.
  - rewrite (first_match_none _ E) in H. discriminate.
Qed.

(** What [validate_russian_plate] returns, in one equation. *)
Lemma validate_russian_plate_eq s :
  validate_russian_plate s =
  match first_match (normalize s) with
  | Some t => Return (valid_result t (spec_region t (normalize s)))
  | None => Return invalid_result
  end.
Proof.
  unfold validate_russian_plate. rewrite classify_loop_first_match.
  destruct (first_match (normalize s)) as [t|] eqn:E; [|reflexivity].
  destruct (first_match_some _ E) as [Hm _].
  rewrite (extract_region_spec _ _ Hm). reflexivity.
Qed.

Lemma validate_russian_plate_no_match s :
  (forall t, matches t (normalize s) = false) ->
  validate_russian_plate s = Return invalid_result.
Proof.
  intros Hno. rewrite validate_russian_plate_eq.
  destruct (first_match (normalize s)) as [t|] eqn:E; [|reflexivity].
  destruct (first_match_some _ E) as [Hm _].
  rewrite Hno in Hm. discriminate.
Qed.

Lemma validate_russian_plate_returns s :
  exists r, validate_russian_plate s = Return r.
Proof.
  rewrite validate_russian_plate_eq.
  destruct (first_match (normalize s)); eauto.
Qed.


Lemma remove_char_not_in c s : ~ In c (remove_char c s).
Proof.
  unfold remove_char. intros H. apply filter_In in H. destruct H as [_ H].
  rewrite N.eqb_refl in H. discriminate.
Qed.

Lemma remove_char_incl c s x : In x (remove_char c s) -> In x s.
Proof. unfold remove_char. intros H. apply filter_In in H. tauto. Qed.

Lemma normalize_clean s :
  ~ In SPACE (normalize s) /\ ~ In HYPHEN (normalize s).
Proof.
  unfold normalize. split.
  - intros H. apply remove_char_incl in H.
    exact (remove_char_not_in _ _ H).
  - apply remove_char_not_in.
Qed.

(** Taxi and trailer share one region rule, so the column of any matching
    type is the column of the first. *)
Lemma spec_region_overlap t1 t2 p :
  overlap_allowed t1 t2 = true -> spec_region t1 p = spec_region t2 p.
Proof. destruct t1, t2; cbn; intros H; try discriminate; reflexivity. Qed.

End Classification.

(** ** Every database agrees with the basic one on Basic Latin and on the
    Cyrillic letters U+0410 to U+044F, so plates written in them can be
    run. *)

Section Transfer.
Context {U : UnicodeDB}.

Lemma basic_char_cases c :
  basic_char c = true ->
  c < 128 \/ 0x410 <= c <= 0x42F \/ 0x430 <= c <= 0x44F.
Proof.
  unfold basic_char. intros H. apply orb_true_iff in H. destruct H as [H|H].
  - apply N.ltb_lt in H. auto.
  - apply andb_true_iff in H. destruct H as [H1 H2].
    apply N.leb_le in H1, H2. lia.
Qed.

Lemma isdecimal_basic c :
  basic_char c = true -> @isdecimal U c = @isdecimal basic_db c.
Proof.
  intros H. destruct (basic_char_cases _ H) as [Hc|Hc].
  - now rewrite !isdecimal_ascii.
  - rewrite !isdecimal_cyrillic by lia. reflexivity.
Qed.

Lemma toupper_basic c :
  basic_char c = true -> @toupper_full U c = @toupper_full basic_db c.
Proof.
  intros H. destruct (basic_char_cases _ H) as [Hc|[Hc|Hc]].
  - now rewrite !toupper_ascii.
  - now rewrite !toupper_cyrillic_capital.
  - now rewrite !toupper_cyrillic_small.
Qed.

Lemma toupper_basic_closed c :
  basic_char c = true -> forallb basic_char (@toupper_full U c) = true.
Proof.
  intros H. destruct (basic_char_cases _ H) as [Hc|[Hc|Hc]].
  - rewrite toupper_ascii by exact Hc. cbn [forallb]. rewrite andb_true_r.
    unfold basic_char. apply orb_true_iff. left. apply N.ltb_lt.
    destruct ((97 <=? c) && (c <=? 122)); lia.
  - rewrite toupper_cyrillic_capital by exact Hc. cbn [forallb].
    now rewrite H.
  - rewrite toupper_cyrillic_small by exact Hc. cbn [forallb].
    rewrite andb_true_r. unfold basic_char. apply orb_true_iff. right.
    apply andb_true_iff. split; apply N.leb_le; lia.
Qed.

Lemma upper_basic s :
  forallb basic_char s = true ->
  @upper U s = @upper basic_db s /\ forallb basic_char (@upper U s) = true.
Proof.
  induction s as [|c s IH]; [cbn; auto|].
  intros H. cbn in H. apply andb_true_iff in H. destruct H as [Hc Hs].
  destruct (IH Hs) as [IH1 IH2].
  change (@upper U (c :: s)) with (@toupper_full U c ++ @upper U s)%list.
  change (@upper basic_db (c :: s))
    with (@toupper_full basic_db c ++ @upper basic_db s)%list.
  rewrite forallb_app, IH2, (toupper_basic_closed _ Hc).
  rewrite IH1, (toupper_basic _ Hc). auto.
Qed.

Lemma remove_char_basic c s :
  forallb basic_char s = true -> forallb basic_char (remove_char c s) = true.
Proof.
  intros H. apply forallb_forall. intros x Hx.
  apply remove_char_incl in Hx.
  rewrite forallb_forall in H. auto.
Qed.

Lemma normalize_basic s :
  forallb basic_char s = true ->
  @normalize U s = @normalize basic_db s /\
  forallb basic_char (@normalize U s) = true.
Proof.
  intros H. destruct (upper_basic _ H) as [E Hb]. unfold normalize.
  rewrite <- E. split; [reflexivity|]. now do 2 apply remove_char_basic.
Qed.

Lemma fits_basic sh : forall p,
  forallb basic_char p = true -> @fits U sh p = @fits basic_db sh p.
Proof.
  induction sh as [|a sh IH]; intros p H; [reflexivity|].
  destruct p as [|c p]; [reflexivity|].
  cbn in H. apply andb_true_iff in H. destruct H as [Hc Hp].
  cbn [fits]. rewrite (IH _ Hp).
  destruct a; cbn [tok_ok]; try reflexivity.
  now rewrite (isdecimal_basic _ Hc).
Qed.

Lemma matches_basic t p :
  forallb basic_char p = true -> @matches U t p = @matches basic_db t p.
Proof.
  intros H. rewrite !matches_shapes.
  induction (shapes t) as [|sh l IH]; [reflexivity|].
  cbn [existsb]. now rewrite IH, (fits_basic _ _ H).
Qed.

(** On a plate written in Basic Latin and the Cyrillic letters U+0410 to
    U+044F the classifier does what it does on the basic database. *)
Lemma validate_russian_plate_basic s :
  forallb basic_char s = true ->
  @validate_russian_plate U s = @validate_russian_plate basic_db s.
Proof.
  intros H. destruct (normalize_basic _ H) as [E Hb].
  rewrite !validate_russian_plate_eq. rewrite <- E.
  unfold first_match, all_kinds. cbn [find].
  rewrite !(matches_basic _ _ Hb). reflexivity.
Qed.

Lemma matches_normalize_basic t s :
  forallb basic_char s = true ->
  @matches U t (@normalize U s) = @matches basic_db t (@normalize basic_db s).
Proof.
  intros H. destruct (normalize_basic _ H) as [E Hb].
  rewrite (matches_basic _ _ Hb), E. reflexivity.
Qed.

(** A shape with a letter or a Cyrillic literal is not met by Basic Latin. *)
Lemma fits_needs_cyrillic sh : forall p,
  fits sh p = true -> needs_cyrillic sh = true ->
  exists c, In c p /\ 128 <= c.
Proof.
  induction sh as [|a sh IH]; intros p Hf Hn; [discriminate|].
  apply fits_cons in Hf. destruct Hf as (c & q & -> & Hc & Hf).
  cbn in Hn. apply orb_true_iff in Hn. destruct Hn as [Hn|Hn].
  - exists c. split; [now left|].
    destruct a as [| |x]; try discriminate.
    + apply letter_range in Hc. lia.
    + cbn in Hc. apply N.eqb_eq in Hc. subst. now apply N.leb_le.
  - destruct (IH _ Hf Hn) as (x & Hx & Hge). exists x. split; [now right|exact Hge].
Qed.

Lemma upper_ascii s : is_ascii s -> is_ascii (upper s).
Proof.
  unfold is_ascii. induction 1 as [|c s Hc _ IH]; cbn; [constructor|].
  apply Forall_app. split; [|exact IH].
  rewrite toupper_ascii by exact Hc. constructor; [|constructor].
  destruct ((97 <=? c) && (c <=? 122)); lia.
Qed.

Lemma normalize_ascii s : is_ascii s -> is_ascii (normalize s).
Proof.
  intros H. apply upper_ascii in H. unfold is_ascii in *.
  rewrite Forall_forall in *. intros x Hx. apply H.
  unfold normalize in Hx. now do 2 apply remove_char_incl in Hx.
Qed.

(** No pattern accepts a string of Basic Latin characters. *)
Lemma ascii_no_match t p : is_ascii p -> matches t p = false.
Proof.
  intros Ha. destruct (matches t p) eqn:E; [|reflexivity].
  apply matches_fits in E. destruct E as (sh & Hin & Hf).
  assert (Hn : needs_cyrillic sh = true).
  { destruct t; cbn in Hin;
      repeat match goal with
             | H : _ \/ _ |- _ => destruct H
             | H : False |- _ => destruct H
             end; subst sh; reflexivity. }
  destruct (fits_needs_cyrillic _ _ Hf Hn) as (c & Hc & Hge).
  unfold is_ascii in Ha. rewrite Forall_forall in Ha.
  specialize (Ha _ Hc). lia.
Qed.

End Transfer.

(** ** What normalization and slicing do *)

Section Normalization.
Context {U : UnicodeDB}.

Lemma filter_twice (f g : char -> bool) l :
  filter f (filter g l) = filter (fun x => g x && f x) l.
Proof.
  induction l as [|x l IH]; [reflexivity|].
  cbn. destruct (g x); cbn; [destruct (f x)|]; now rewrite IH.
Qed.

Lemma normalize_filter s :
  normalize s = filter not_separator (flat_map toupper_full s).
Proof. unfold normalize, remove_char. apply filter_twice. Qed.

Lemma toupper_capital c :
  basic_char c = true -> toupper_full c = [capital c].
Proof.
  intros H. unfold capital.
  destruct (basic_char_cases _ H) as [Hc|[Hc|Hc]].
  - rewrite toupper_ascii by exact Hc.
    destruct (N.leb_spec 0x430 c); [lia|].
    cbn [andb]. now rewrite orb_false_r.
  - rewrite toupper_cyrillic_capital by exact Hc.
    destruct (N.leb_spec 0x430 c); [lia|].
    destruct (N.leb_spec c 122); [lia|].
    now rewrite andb_false_r.
  - rewrite toupper_cyrillic_small by exact Hc.
    destruct (N.leb_spec 0x430 c); [|lia].
    destruct (N.leb_spec c 0x44F); [|lia].
    now rewrite orb_true_r.
Qed.

Lemma upper_capital s :
  forallb basic_char s = true -> upper s = map capital s.
Proof.
  induction s as [|c s IH]; [reflexivity|].
  cbn [forallb]. intros H. apply andb_true_iff in H. destruct H as [Hc Hs].
  change (upper (c :: s)) with (toupper_full c ++ upper s)%list.
  now rewrite (toupper_capital _ Hc), IH.
Qed.

(** On Basic Latin and the Cyrillic letters U+0410 to U+044F the
    normalized plate is the input with its letters in upper case and its
    spaces and hyphens left out. *)
Lemma normalize_capital s :
  forallb basic_char s = true ->
  normalize s = filter not_separator (map capital s).
Proof.
  intros H. rewrite normalize_filter.
  change (flat_map toupper_full s) with (upper s).
  now rewrite upper_capital.
Qed.

Lemma matches_min_length t p :
  matches t p = true -> (6 <= List.length p)%nat.
Proof.
  intros H. apply matches_fits in H. destruct H as (sh & Hin & Hf).
  destruct t; cbn in Hin;
    repeat match goal with
           | H : _ \/ _ |- _ => destruct H
           | H : False |- _ => destruct H
           end; subst sh;
    pose proof (fits_length _ _ Hf) as Hlen; cbn in Hlen; lia.
Qed.

Lemma last_chars_is_last n p :
  (n <= List.length p)%nat -> is_last n p (last_chars n p).
Proof.
  intros H. exists (firstn (List.length p - n) p). unfold last_chars.
  rewrite firstn_skipn, length_skipn. split; [reflexivity|lia].
Qed.

Lemma substring_after_is_after sep p :
  In sep p -> is_after sep p (substring_after sep p).
Proof.
  unfold is_after. induction p as [|c p IH]; [intros []|].
  intros Hin. cbn [substring_after]. destruct (N.eqb_spec c sep) as [->|Hne].
  - exists []. split; [reflexivity|]. intros [].
  - destruct Hin as [Hin|Hin]; [congruence|].
    destruct (IH Hin) as (pre & E & Hpre).
    exists (c :: pre). split; [cbn; now rewrite <- E|].
    intros [H|H]; [congruence|auto].
Qed.

Lemma fits_literal sh x : forall p,
  fits sh p = true -> In (C x) sh -> In x p.
Proof.
  induction sh as [|a sh IH]; intros p Hf Hin; [destruct Hin|].
  apply fits_cons in Hf. destruct Hf as (c & q & -> & Hc & Hf).
  destruct Hin as [->|Hin].
  - cbn in Hc. apply N.eqb_eq in Hc. subst. now left.
  - right. now apply IH.
Qed.

Lemma diplomatic_has_DE p : matches Diplomatic p = true -> In DE p.
Proof.
  intros H. apply matches_fits in H. destruct H as (sh & Hin & Hf).
  eapply fits_literal; [exact Hf|].
  cbn in Hin.
  repeat match goal with
         | H : _ \/ _ |- _ => destruct H
         | H : False |- _ => destruct H
         end; subst sh; cbn; auto 10.
Qed.

(** What follows the letter DE of a diplomatic plate has no second DE. *)
Lemma diplomatic_region_no_DE p :
  matches Diplomatic p = true -> ~ In DE (substring_after DE p).
Proof.
  intros H. apply matches_fits in H. destruct H as (sh & Hin & Hf).
  cbn in Hin.
  repeat match goal with
         | H : _ \/ _ |- _ => destruct H
         | H : False |- _ => destruct H
         end; subst sh;
    repeat (let c := fresh "c" in
            let q := fresh "q" in
            let Hc := fresh "Hc" in
            apply fits_cons in Hf; destruct Hf as (c & q & -> & Hc & Hf);
            cbn [tok_ok] in Hc);
    apply fits_nil in Hf; destruct Hf as [-> | ->];
    repeat match goal with
           | H : (DE =? ?c) = true |- _ => apply N.eqb_eq in H; subst c
           end;
    repeat match goal with
           | H : isdecimal ?c = true |- _ =>
               apply digit_not_DE in H
           end;
    cbn [substring_after];
    repeat match goal with
           | H : (?c =? DE) = false |- _ => rewrite ?H; revert H
           end;
    cbn [N.eqb DE Pos.eqb]; intros; cbn [In];
    repeat match goal with
           | H : (?c =? DE) = false |- _ => apply N.eqb_neq in H
           end;
    intuition (congruence || discriminate).
Qed.

(** The slicing of the code gives the region of the table's row. *)
Lemma spec_region_rule t p :
  matches t p = true -> region_rule t p (spec_region t p).
Proof.
  intros Hm. pose proof (matches_min_length _ _ Hm) as Hlen.
  destruct t; cbn [region_rule spec_region];
    try reflexivity;
    try (eexists; split; [reflexivity|];
         unfold region_exactly_8, region_at_most_8;
         match goal with
         | |- context [if ?b then _ else _] => destruct b
         end; apply last_chars_is_last; lia).
  eexists. split; [reflexivity|]. split.
  - apply substring_after_is_after. now apply diplomatic_has_DE.
  - now apply diplomatic_region_no_DE.
Qed.

End Normalization.

(** ** The classification contract *)

Section Contract.
Context {U : UnicodeDB}.

(** C1. The input is upper-cased and stripped of every space and hyphen:
    the normalized string is the upper-case mapping of the input without
    its spaces and hyphens, which on Basic Latin and Cyrillic letters is
    the input with every letter in upper case and no space or hyphen.
    The six patterns are tried in the order standard, taxi, trailer,
    motorcycle, transit, diplomatic, and the plate type returned is the
    earliest type of that order whose pattern accepts the normalized
    string, whatever later patterns accept it too. *)
Theorem first_match_wins (s : str) :
  normalize s = filter not_separator (flat_map toupper_full s) /\
  (forallb basic_char s = true ->
   normalize s = filter not_separator (map capital s)) /\
  ~ In SPACE (normalize s) /\ ~ In HYPHEN (normalize s) /\
  map fst patterns =
    [Standard; Taxi; Trailer; Motorcycle; Transit; Diplomatic] /\
  forall t, matches t (normalize s) = true ->
    exists r t0,
      validate_russian_plate s = Return r /\
      is_valid r = true /\
      plate_type r = Some t0 /\
      matches t0 (normalize s) = true /\
      (rank t0 <= rank t)%nat /\
      forall t', (rank t' < rank t0)%nat -> matches t' (normalize s) = false.
Proof.
  split; [apply normalize_filter|].
  split; [apply normalize_capital|].
  destruct (normalize_clean s) as [Hs Hh].
  do 3 (split; [assumption || reflexivity|]).
  intros t Hm.
  destruct (first_match_le _ _ Hm) as (t0 & E & Hle).
  destruct (first_match_some _ E) as [Hm0 Hmin].
  exists (valid_result t0 (spec_region t0 (normalize s))), t0.
  rewrite validate_russian_plate_eq, E. auto 10.
Qed.

(** C2. When the normalized string matches a pattern, the region code
    returned is the one of that pattern's row: for standard the last 2
    characters if the length is exactly 8, else the last 3; for taxi,
    trailer and motorcycle the last 2 characters if the length is at most
    8, else the last 3; for transit none; for diplomatic the substring
    after the letter DE.  The last [n] characters are the suffix of
    length [n] of the normalized string, and the substring after DE is
    what follows its only DE. *)
Theorem region_code_rule (s : str) (t : plate_kind) :
  matches t (normalize s) = true ->
  exists r,
    validate_russian_plate s = Return r /\
    region_code r = spec_region t (normalize s) /\
    region_rule t (normalize s) (region_code r).
Proof.
  intros Hm.
  destruct (first_match_le _ _ Hm) as (t0 & E & _).
  destruct (first_match_some _ E) as [Hm0 _].
  exists (valid_result t0 (spec_region t0 (normalize s))).
  rewrite validate_russian_plate_eq, E. split; [reflexivity|].
  cbn [region_code valid_result].
  rewrite (spec_region_overlap _ _ (normalize s)
             (matches_disjoint _ _ _ Hm0 Hm)).
  split; [reflexivity|]. now apply spec_region_rule.
Qed.

(** C6. When the normalized string matches none of the six patterns the
    result is exactly: not valid, no plate type, no region code, and the
    invalid-format message. *)
Theorem no_match_invalid (s : str) :
  (forall t, matches t (normalize s) = false) ->
  validate_russian_plate s =
  Return {| is_valid := false;
            plate_type := None;
            region_code := None;
            message := u8 "Некорректный формат номерного знака" |}.
Proof.
  intros Hno. rewrite (validate_russian_plate_no_match _ Hno). reflexivity.
Qed.

(** C7. The classifier is total: on every string (so on every string of
    length at least 1) it returns without raising, and what it returns is
    either the invalid result, when no pattern matches, or the valid
    result of exactly one of the six plate types. *)
Theorem validate_russian_plate_total (s : str) :
  exists r,
    validate_russian_plate s = Return r /\
    ((r = invalid_result /\ forall t, matches t (normalize s) = false) \/
     (exists t,
        r = valid_result t (spec_region t (normalize s)) /\
        matches t (normalize s) = true)) /\
    (is_valid r = false <-> r = invalid_result) /\
    (is_valid r = true <-> exists t, plate_type r = Some t).
Proof.
  rewrite validate_russian_plate_eq.
  destruct (first_match (normalize s)) as [t|] eqn:E.
  - destruct (first_match_some _ E) as [Hm _].
    eexists. split; [reflexivity|]. split; [right; eauto|].
    cbn. split; split; try discriminate; eauto.
  - pose proof (first_match_none _ E).
    eexists. split; [reflexivity|]. split; [left; auto|].
    cbn. split; split; try discriminate; auto.
    intros [t Ht]. discriminate.
Qed.

(** C9. The Latin look-alike plate "A123BC77" is classified invalid, and
    so is every string of Basic Latin characters: none of the patterns
    accepts it, the letter classes being Cyrillic only. *)
Theorem latin_lookalike_invalid :
  validate_russian_plate (u8 "A123BC77") = Return invalid_result /\
  forall s, is_ascii s ->
    (forall t, matches t (normalize s) = false) /\
    validate_russian_plate s = Return invalid_result.
Proof.
  assert (H : forall s, is_ascii s ->
    (forall t, matches t (normalize s) = false) /\
    validate_russian_plate s = Return invalid_result).
  { intros s Hs. apply normalize_ascii in Hs.
    assert (Hno : forall t, matches t (normalize s) = false)
      by (intros t; now apply ascii_no_match).
    split; [exact Hno|]. exact (validate_russian_plate_no_match _ Hno). }
  split; [|exact H].
  apply H. unfold is_ascii. cbv [u8 Utf8.decode]. repeat constructor.
Qed.

End Contract.

(** ** The two region thresholds and the overlap of the patterns *)

Section Thresholds.
Context {U : UnicodeDB}.

Lemma matches_length t p :
  matches t p = true ->
  exists sh, In sh (shapes t) /\
    (List.length p = List.length sh \/ List.length p = S (List.length sh)).
Proof.
  intros H. apply matches_fits in H. destruct H as (sh & Hin & Hf).
  exists sh. split; [exact Hin|]. now apply fits_length.
Qed.

Lemma long_plate_min_length t p :
  t <> Taxi -> t <> Transit -> t <> Diplomatic ->
  matches t p = true -> (8 <= List.length p)%nat.
Proof.
  intros H1 H2 H3 Hm. apply matches_length in Hm.
  destruct Hm as (sh & Hin & Hlen).
  destruct t; try congruence; cbn in Hin;
    repeat match goal with
           | H : _ \/ _ |- _ => destruct H
           | H : False |- _ => destruct H
           end; subst sh; cbn in *; lia.
Qed.

Lemma taxi_min_length p :
  matches Taxi p = true -> (7 <= List.length p)%nat.
Proof.
  intros Hm. apply matches_length in Hm.
  destruct Hm as (sh & Hin & Hlen).
  cbn in Hin.
  repeat match goal with
         | H : _ \/ _ |- _ => destruct H
         | H : False |- _ => destruct H
         end; subst sh; cbn in *; lia.
Qed.

Lemma same_region_from_8 p :
  (8 <= List.length p)%nat -> region_exactly_8 p = region_at_most_8 p.
Proof.
  unfold region_exactly_8, region_at_most_8. intros H.
  destruct (Nat.eqb_spec (List.length p) 8) as [E|E].
  - rewrite E. reflexivity.
  - destruct (Nat.leb_spec (List.length p) 8); [lia|reflexivity].
Qed.

Lemma other_region_below_8 p :
  (3 <= List.length p < 8)%nat -> region_exactly_8 p <> region_at_most_8 p.
Proof.
  unfold region_exactly_8, region_at_most_8, last_chars. intros H E.
  destruct (Nat.eqb_spec (List.length p) 8); [lia|].
  destruct (Nat.leb_spec (List.length p) 8); [|lia].
  apply (f_equal (@List.length char)) in E.
  rewrite !length_skipn in E. lia.
Qed.

(** C4, as amended. On every string that matches the trailer or the
    motorcycle pattern the two thresholds give one region code; on a
    string that matches the taxi pattern they give one region code
    exactly when its length is at least 8. *)
Theorem thresholds_agree_from_8 (p : str) :
  (matches Trailer p = true \/ matches Motorcycle p = true ->
   region_exactly_8 p = region_at_most_8 p) /\
  (matches Taxi p = true ->
   (region_exactly_8 p = region_at_most_8 p <-> (8 <= List.length p)%nat)).
Proof.
  split.
  - intros [H|H]; apply same_region_from_8;
      eapply long_plate_min_length; try exact H; discriminate.
  - intros H. apply taxi_min_length in H. split.
    + intros E. destruct (Nat.le_gt_cases 8 (List.length p)) as [Hle|Hlt];
        [exact Hle|].
      exfalso. apply (other_region_below_8 p); [lia|exact E].
    + apply same_region_from_8.
Qed.

(** C5. The plate the docstring lists as a trailer, two letters and six
    digits, is accepted by the taxi pattern and by the trailer pattern,
    and is classified as a taxi. *)
Theorem taxi_trailer_overlap :
  matches Taxi (normalize (u8 "АВ123477")) = true /\
  matches Trailer (normalize (u8 "АВ123477")) = true /\
  validate_russian_plate (u8 "АВ123477") =
    Return (valid_result Taxi (Some (u8 "77"))).
Proof.
  rewrite (matches_normalize_basic Taxi (u8 "АВ123477")) by reflexivity.
  rewrite (matches_normalize_basic Trailer (u8 "АВ123477")) by reflexivity.
  rewrite (validate_russian_plate_basic (u8 "АВ123477")) by reflexivity.
  repeat split; vm_compute; reflexivity.
Qed.

(** C10. A plate followed by a newline is accepted, [$] holding before a
    final newline, and the region code returned for it ends in that
    newline, which is no decimal digit. *)
Theorem region_code_trailing_newline :
  validate_russian_plate (u8 "А123ВС77" ++ [NEWLINE]) =
    Return (valid_result Standard (Some (u8 "77" ++ [NEWLINE]))) /\
  isdecimal NEWLINE = false.
Proof.
  split; [|apply newline_not_digit].
  rewrite (validate_russian_plate_basic (u8 "А123ВС77" ++ [NEWLINE]))
    by reflexivity.
  vm_compute. reflexivity.
Qed.

End Thresholds.

(** ** The counters *)

Section Counters.
Context {U : UnicodeDB}.
Local Open Scope Z_scope.

Lemma update_stats_count r st :
  update_stats r st = count_result (is_valid r) st.
Proof. unfold update_stats, count_result. destruct (is_valid r); reflexivity. Qed.

Lemma count_result_consistent b st :
  consistent st -> consistent (count_result b st).
Proof. unfold consistent, count_result. destruct b; cbn; lia. Qed.

Lemma fold_count_consistent bs : forall st,
  consistent st -> consistent (fold_left (fun st b => count_result b st) bs st).
Proof.
  induction bs as [|b bs IH]; intros st H; [exact H|].
  cbn. apply IH. now apply count_result_consistent.
Qed.

Lemma validate_license_plate_body_counts plate st :
  snd (validate_license_plate_body plate st) =
  fold_left (fun st b => count_result b st)
    (validities (fst (validate_license_plate_body plate st))) st.
Proof.
  unfold validate_license_plate_body.
  destruct (validate_russian_plate_returns plate) as [r ->].
  cbn. apply update_stats_count.
Qed.

Lemma validate_each_counts plate_list : forall results st,
  exists new,
    fst (validate_each plate_list results st) = (results ++ new)%list /\
    snd (validate_each plate_list results st) =
      fold_left (fun st b => count_result b st)
        (map Response.is_valid new) st.
Proof.
  induction plate_list as [|plate rest IH]; intros results st.
  - exists []. cbn. now rewrite app_nil_r.
  - cbn [validate_each].
    destruct (validate_russian_plate_returns plate) as [r ->].
    destruct (IH (results ++ [make_response (normalize plate) r])%list
                 (update_stats r st)) as (new & E1 & E2).
    exists (make_response (normalize plate) r :: new).
    rewrite E1, E2, <- app_assoc. split; [reflexivity|].
    cbn. now rewrite update_stats_count.
Qed.

(** The counters move by one [count_result] for each classification
    record of the answer, and by nothing else. *)
Lemma handle_counts req st :
  snd (handle req st) =
  fold_left (fun st b => count_result b st)
    (validities (fst (handle req st))) st.
Proof.
  destruct req as [body|plate|plates|]; cbn [handle].
  - unfold validate_license_plate.
    destruct (validate_plate_number body); [|reflexivity].
    apply validate_license_plate_body_counts.
  - unfold get_license_plate_info.
    destruct (strip plate); [reflexivity|].
    apply validate_license_plate_body_counts.
  - unfold validate_multiple_plates.
    destruct (plate_list_of plates) as [|x l] eqn:E; [reflexivity|].
    destruct (Nat.ltb 10 (List.length (x :: l))); [reflexivity|].
    destruct (validate_each_counts (x :: l) [] st) as (new & E1 & E2).
    destruct (validate_each (x :: l) [] st) as [results st'].
    cbn in *. subst. reflexivity.
  - reflexivity.
Qed.

Lemma validate_license_plate_body_update plate r st :
  validate_russian_plate plate = Return r ->
  snd (validate_license_plate_body plate st) = update_stats r st.
Proof. unfold validate_license_plate_body. now intros ->. Qed.

Lemma validate_each_results plate_list : forall results st,
  exists rs,
    Forall2 (fun plate r => validate_russian_plate plate = Return r)
            plate_list rs /\
    snd (validate_each plate_list results st) =
      fold_left (fun st r => update_stats r st) rs st.
Proof.
  induction plate_list as [|plate rest IH]; intros results st.
  - exists []. split; [constructor|reflexivity].
  - destruct (validate_russian_plate_returns plate) as [r E].
    cbn [validate_each]. rewrite E.
    destruct (IH (results ++ [make_response (normalize plate) r])%list
                 (update_stats r st)) as (rs & HF & Hst).
    exists (r :: rs). split; [now constructor|exact Hst].
Qed.

(** C3. The counters are all zero when the module is loaded; a
    classification adds one to total and one to exactly one of valid and
    invalid; POST /validate and GET /{plate} do that once for the plate
    they classify, the batch endpoint once for each plate of its list in
    order; so total is valid plus invalid in every state reached by
    serving requests one after the other. *)
Theorem counters_invariant :
  validation_stats = {| total := 0; valid := 0; invalid := 0 |} /\
  (forall r st,
     update_stats r st =
     if is_valid r
     then {| total := total st + 1; valid := valid st + 1;
             invalid := invalid st |}
     else {| total := total st + 1; valid := valid st;
             invalid := invalid st + 1 |}) /\
  (forall body plate r st,
     validate_plate_number body = Some plate ->
     validate_russian_plate plate = Return r ->
     snd (handle (PostValidate body) st) = update_stats r st) /\
  (forall plate r st,
     strip plate <> [] ->
     validate_russian_plate plate = Return r ->
     snd (handle (GetPlate plate) st) = update_stats r st) /\
  (forall plates st,
     plate_list_of plates <> [] ->
     (List.length (plate_list_of plates) <= 10)%nat ->
     exists rs,
       Forall2 (fun plate r => validate_russian_plate plate = Return r)
               (plate_list_of plates) rs /\
       snd (handle (GetPlates plates) st) =
         fold_left (fun st r => update_stats r st) rs st) /\
  (forall st, reachable st -> total st = valid st + invalid st).
Proof.
  split; [reflexivity|].
  split; [intros r st; apply update_stats_count|].
  split; [|split; [|split]].
  - intros body plate r st Hv Hr. cbn [handle].
    unfold validate_license_plate. rewrite Hv.
    now apply validate_license_plate_body_update.
  - intros plate r st Hne Hr. cbn [handle].
    unfold get_license_plate_info.
    destruct (strip plate); [congruence|].
    now apply validate_license_plate_body_update.
  - intros plates st Hne Hlen. cbn [handle].
    unfold validate_multiple_plates.
    destruct (plate_list_of plates) as [|x l] eqn:E; [congruence|].
    destruct (Nat.ltb_spec 10 (List.length (x :: l))) as [H|H]; [lia|].
    destruct (validate_each_results (x :: l) [] st) as (rs & HF & Hst).
    exists rs. split; [exact HF|].
    destruct (validate_each (x :: l) [] st). exact Hst.
  - induction 1 as [|st st' _ IH [req Hstep]]; [reflexivity|].
    subst st'. rewrite handle_counts. now apply fold_count_consistent.
Qed.

(** C8. A batch whose list of plates, after splitting on commas, trimming
    and dropping the empty entries, is empty or has more than 10 entries
    is answered with a 400 error, and the counters are what they were. *)
Theorem batch_rejected_counters_unchanged (plates : str) (st : stats) :
  plate_list_of plates = [] \/ (10 < List.length (plate_list_of plates))%nat ->
  exists detail,
    handle (GetPlates plates) st = (HTTPException 400 detail, st).
Proof.
  intros H. cbn [handle]. unfold validate_multiple_plates.
  destruct (plate_list_of plates) as [|x l]; [eauto|].
  destruct H as [H|H]; [discriminate|].
  apply Nat.ltb_lt in H. rewrite H. eauto.
Qed.

End Counters.

(** ** What holds of the shape of the result *)

Section WellFormed.
Context {U : UnicodeDB}.

(** The plate type is absent exactly on the invalid result, which has no
    region code. *)
Lemma result_flags (s : str) :
  exists r,
    validate_russian_plate s = Return r /\
    (plate_type r = None <-> is_valid r = false) /\
    (is_valid r = false -> region_code r = None).
Proof.
  rewrite validate_russian_plate_eq.
  destruct (first_match (normalize s)); eexists; (split; [reflexivity|]);
    cbn; repeat split; congruence.
Qed.

Lemma region_digits_of_match t p region :
  matches t p = true ->
  spec_region t p = Some region ->
  last p 0 <> NEWLINE ->
  (List.length region = 2%nat \/ List.length region = 3%nat) /\
  forallb isdecimal region = true.
Proof.
  intros Hm Hreg Hnl.
  apply matches_fits in Hm. destruct Hm as (sh & Hin & Hf).
  destruct t; cbn in Hin;
    repeat match goal with
           | H : _ \/ _ |- _ => destruct H
           | H : False |- _ => destruct H
           end; subst sh;
    repeat (let c := fresh "c" in
            let q := fresh "q" in
            let Hc := fresh "Hc" in
            apply fits_cons in Hf; destruct Hf as (c & q & -> & Hc & Hf);
            cbn [tok_ok] in Hc);
    apply fits_nil in Hf; destruct Hf as [-> | ->];
    try (exfalso; apply Hnl; reflexivity);
    try discriminate Hreg;
    repeat match goal with
           | H : (DE =? ?c) = true |- _ => apply N.eqb_eq in H; subst c
           end;
    cbn in Hreg;
    repeat match goal with
           | H : isdecimal ?c = true |- _ =>
               rewrite ?(digit_not_DE _ H) in Hreg; revert H
           end;
    cbn in Hreg; injection Hreg as <-; intros;
    cbn [forallb List.length];
    repeat match goal with
           | H : isdecimal ?c = true |- _ => rewrite ?H; clear H
           end;
    auto.
Qed.

(** Unless the normalized string ends in a newline, a region code is two
    or three decimal digits. *)
Lemma region_digits_without_newline (s : str) (r : result) (region : str) :
  validate_russian_plate s = Return r ->
  region_code r = Some region ->
  last (normalize s) 0 <> NEWLINE ->
  (List.length region = 2%nat \/ List.length region = 3%nat) /\
  forallb isdecimal region = true.
Proof.
  rewrite validate_russian_plate_eq.
  destruct (first_match (normalize s)) as [t|] eqn:E;
    [|intros [= <-]; discriminate].
  destruct (first_match_some _ E) as [Hm _].
  intros [= <-]. cbn [region_code valid_result].
  now apply region_digits_of_match.
Qed.

End WellFormed.

(** ** The theorems at concrete plates, on the basic database *)

Example standard_plate :
  @validate_russian_plate basic_db (u8 "А123ВС77")
  = Return (valid_result Standard (Some (u8 "77"))).
Proof. vm_compute. reflexivity. Qed.

Example lower_case_spaced_plate :
  @validate_russian_plate basic_db (u8 "а 123-вс 777")
  = Return (valid_result Standard (Some (u8 "777"))).
Proof. vm_compute. reflexivity. Qed.

Example transit_plate :
  @validate_russian_plate basic_db (u8 "Т12345А")
  = Return (valid_result Transit None).
Proof. vm_compute. reflexivity. Qed.

Example diplomatic_plate :
  @validate_russian_plate basic_db (u8 "123Д77")
  = Return (valid_result Diplomatic (Some (u8 "77"))).
Proof. vm_compute. reflexivity. Qed.

Example long_taxi_plate :
  @validate_russian_plate basic_db (u8 "АВ123777")
  = Return (valid_result Taxi (Some (u8 "77"))).
Proof. vm_compute. reflexivity. Qed.

Example stats_before_any_request :
  fst (@handle basic_db GetStats validation_stats)
  = Stats200 {| total_validated := 0; valid_plates := 0; invalid_plates := 0 |}.
Proof. reflexivity. Qed.

(** C4, as stated, fails on a taxi plate of seven characters: the rule
    with "exactly 8" takes its last three characters, the rule with "at
    most 8" its last two. *)
Lemma thresholds_differ_on_short_taxi :
  @normalize basic_db (u8 "АВ12377") = u8 "АВ12377" /\
  @matches basic_db Taxi (u8 "АВ12377") = true /\
  region_exactly_8 (u8 "АВ12377") = u8 "377" /\
  region_at_most_8 (u8 "АВ12377") = u8 "77" /\
  region_exactly_8 (u8 "АВ12377") <> region_at_most_8 (u8 "АВ12377").
Proof.
  repeat split; try (vm_compute; reflexivity).
  vm_compute. discriminate.
Qed.

Lemma first_match_wins_witness :
  forallb basic_char (u8 "ав-1234 77") = true /\
  @normalize basic_db (u8 "ав-1234 77") = u8 "АВ123477" /\
  @matches basic_db Trailer (@normalize basic_db (u8 "ав-1234 77")) = true /\
  exists r t0,
    @validate_russian_plate basic_db (u8 "ав-1234 77") = Return r /\
    plate_type r = Some t0 /\
    (rank t0 <= rank Trailer)%nat.
Proof.
  destruct (@first_match_wins basic_db (u8 "ав-1234 77"))
    as (_ & Hcap & _ & _ & _ & Hfirst).
  split; [vm_compute; reflexivity|].
  split; [rewrite Hcap by (vm_compute; reflexivity); vm_compute; reflexivity|].
  assert (Hm : @matches basic_db Trailer
                 (@normalize basic_db (u8 "ав-1234 77")) = true)
    by (vm_compute; reflexivity).
  split; [exact Hm|].
  destruct (Hfirst Trailer Hm) as (r & t0 & Hr & _ & Ht & _ & Hle & _).
  exists r, t0. auto.
Defined.

Lemma region_code_rule_witness :
  @matches basic_db Standard (@normalize basic_db (u8 "А123ВС777")) = true /\
  exists r,
    @validate_russian_plate basic_db (u8 "А123ВС777") = Return r /\
    region_code r = Some (u8 "777").
Proof.
  assert (Hm : @matches basic_db Standard
                 (@normalize basic_db (u8 "А123ВС777")) = true)
    by (vm_compute; reflexivity).
  split; [exact Hm|].
  destruct (@region_code_rule basic_db (u8 "А123ВС777") Standard Hm)
    as (r & Hr & Hreg & _).
  exists r. split; [exact Hr|].
  rewrite Hreg. vm_compute. reflexivity.
Defined.

Lemma no_match_invalid_witness :
  (forall t, @matches basic_db t (@normalize basic_db (u8 "XYZZY")) = false) /\
  @validate_russian_plate basic_db (u8 "XYZZY") = Return invalid_result.
Proof.
  split; [intros []; vm_compute; reflexivity|].
  apply (@no_match_invalid basic_db (u8 "XYZZY")).
  intros []; vm_compute; reflexivity.
Defined.

Lemma latin_lookalike_invalid_witness :
  is_ascii (u8 "XYZZY-77") /\
  @validate_russian_plate basic_db (u8 "XYZZY-77") = Return invalid_result.
Proof.
  assert (H : is_ascii (u8 "XYZZY-77"))
    by (unfold is_ascii; cbv [u8 Utf8.decode]; repeat constructor).
  split; [exact H|].
  exact (proj2 (proj2 (@latin_lookalike_invalid basic_db) _ H)).
Defined.

Lemma thresholds_agree_from_8_witness :
  @matches basic_db Motorcycle (u8 "1234АВ77") = true /\
  region_exactly_8 (u8 "1234АВ77") = region_at_most_8 (u8 "1234АВ77").
Proof.
  split; [vm_compute; reflexivity|].
  apply (proj1 (@thresholds_agree_from_8 basic_db (u8 "1234АВ77"))).
  right. vm_compute; reflexivity.
Defined.

Lemma counters_invariant_witness :
  @reachable basic_db {| total := 4; valid := 2; invalid := 2 |} /\
  (4 = 2 + 2)%Z.
Proof.
  assert (H : @reachable basic_db {| total := 4; valid := 2; invalid := 2 |}).
  { apply (@reach_step basic_db {| total := 2; valid := 1; invalid := 1 |}).
    - apply (@reach_step basic_db {| total := 1; valid := 1; invalid := 0 |}).
      + apply (@reach_step basic_db validation_stats); [apply reach_init|].
        exists (PostValidate (u8 "А123ВС77")). vm_compute; reflexivity.
      + exists (GetPlate (u8 "XYZZY")). vm_compute; reflexivity.
    - exists (GetPlates (u8 "А123ВС77,XYZZY")). vm_compute; reflexivity. }
  split; [exact H|].
  exact (proj2 (proj2 (proj2 (proj2 (proj2 (@counters_invariant basic_db)))))
           _ H).
Defined.

Lemma batch_rejected_counters_unchanged_witness :
  (10 < List.length
          (@plate_list_of basic_db (u8 "1,2,3,4,5,6,7,8,9,10,11")))%nat /\
  exists detail,
    @handle basic_db (GetPlates (u8 "1,2,3,4,5,6,7,8,9,10,11")) validation_stats
    = (HTTPException 400 detail, validation_stats).
Proof.
  assert (H : (10 < List.length
          (@plate_list_of basic_db (u8 "1,2,3,4,5,6,7,8,9,10,11")))%nat)
    by (vm_compute; lia).
  split; [exact H|].
  apply (@batch_rejected_counters_unchanged basic_db). right. exact H.
Defined.

(** The plate with a final newline reaches the classifier through the
    POST endpoint: [strip()] leaves the newline that a hyphen follows,
    and the normalization then removes the hyphen. *)
Lemma trailing_newline_through_post :
  exists answer,
    @handle basic_db (PostValidate (u8 "А123ВС77" ++ [NEWLINE; HYPHEN]))
      validation_stats
    = (Plate200 answer, {| total := 1; valid := 1; invalid := 0 |}) /\
    Response.plate_number answer = (u8 "А123ВС77" ++ [NEWLINE])%list /\
    Response.region_code answer = Some (u8 "77" ++ [NEWLINE])%list.
Proof. eexists. vm_compute. repeat split. Qed.

(** * Further properties of the classifier *)

Section ClassifierProperties.
Context {U : UnicodeDB}.

Lemma remove_char_app c a b :
  remove_char c (a ++ b) = (remove_char c a ++ remove_char c b)%list.
Proof. apply filter_app. Qed.

Lemma remove_char_comm c d s :
  remove_char c (remove_char d s) = remove_char d (remove_char c s).
Proof.
  unfold remove_char. induction s as [|x s IH]; [reflexivity|].
  cbn. destruct (x =? d) eqn:Ed, (x =? c) eqn:Ec; cbn;
    rewrite ?Ed, ?Ec; cbn; now rewrite IH.
Qed.

Lemma remove_char_idem c s :
  remove_char c (remove_char c s) = remove_char c s.
Proof.
  unfold remove_char. induction s as [|x s IH]; [reflexivity|].
  cbn. destruct (x =? c) eqn:E; cbn; rewrite ?E; cbn; now rewrite IH.
Qed.

Lemma remove_char_same c s : remove_char c (c :: s) = remove_char c s.
Proof. unfold remove_char. cbn. now rewrite N.eqb_refl. Qed.

Lemma remove_char_other c x s :
  (x =? c) = false -> remove_char c (x :: s) = x :: remove_char c s.
Proof. unfold remove_char. cbn. now intros ->. Qed.

Lemma upper_cons c s : upper (c :: s) = (toupper_full c ++ upper s)%list.
Proof. reflexivity. Qed.

(** Removing a caseless character before [upper()] or after it is the
    same, once it is removed after. *)
Lemma remove_char_upper c s :
  toupper_full c = [c] ->
  remove_char c (upper (remove_char c s)) = remove_char c (upper s).
Proof.
  intros Hc. induction s as [|x s IH]; [reflexivity|].
  rewrite (upper_cons x s), remove_char_app, <- IH.
  destruct (x =? c) eqn:E.
  - apply N.eqb_eq in E. subst x.
    rewrite remove_char_same, Hc, remove_char_same. reflexivity.
  - rewrite remove_char_other by exact E.
    rewrite upper_cons, remove_char_app.
    reflexivity.
Qed.

Lemma toupper_space : toupper_full SPACE = [SPACE].
Proof. rewrite toupper_ascii by (unfold SPACE; lia). reflexivity. Qed.

Lemma toupper_hyphen : toupper_full HYPHEN = [HYPHEN].
Proof. rewrite toupper_ascii by (unfold HYPHEN; lia). reflexivity. Qed.

Lemma normalize_without_separators s :
  normalize (remove_char HYPHEN (remove_char SPACE s)) = normalize s.
Proof.
  unfold normalize.
  rewrite (remove_char_comm HYPHEN SPACE (upper _)).
  rewrite (remove_char_upper _ toupper_hyphen).
  rewrite (remove_char_comm SPACE HYPHEN (upper _)).
  now rewrite (remove_char_upper _ toupper_space).
Qed.

(** X1. Two inputs that are the same once their spaces and hyphens are
    taken out get the same normalized plate and the same result. *)
Theorem separators_ignored (s1 s2 : str) :
  remove_char HYPHEN (remove_char SPACE s1)
  = remove_char HYPHEN (remove_char SPACE s2) ->
  normalize s1 = normalize s2 /\
  validate_russian_plate s1 = validate_russian_plate s2.
Proof.
  intros H.
  assert (E : normalize s1 = normalize s2).
  { rewrite <- (normalize_without_separators s1),
            <- (normalize_without_separators s2). now rewrite H. }
  split; [exact E|]. unfold validate_russian_plate. now rewrite E.
Qed.

(** The upper-case form of a basic character is one character that
    [upper()] leaves alone. *)
Lemma toupper_basic_fixed c :
  basic_char c = true ->
  exists c', toupper_full c = [c'] /\ toupper_full c' = [c'].
Proof.
  intros H. destruct (basic_char_cases _ H) as [Hc|[Hc|Hc]].
  - rewrite toupper_ascii by exact Hc.
    eexists. split; [reflexivity|].
    destruct ((97 <=? c) && (c <=? 122)) eqn:E.
    + apply andb_true_iff in E. destruct E as [E1 E2].
      apply N.leb_le in E1, E2.
      rewrite toupper_ascii by lia.
      destruct (N.leb_spec 97 (c - 32)); [lia|reflexivity].
    + rewrite toupper_ascii by exact Hc. now rewrite E.
  - exists c. split; now apply toupper_cyrillic_capital.
  - rewrite toupper_cyrillic_small by exact Hc.
    eexists. split; [reflexivity|].
    apply toupper_cyrillic_capital. lia.
Qed.

Lemma upper_fixed s :
  Forall (fun c => toupper_full c = [c]) s -> upper s = s.
Proof.
  induction 1 as [|c s Hc _ IH]; [reflexivity|].
  now rewrite upper_cons, Hc, IH.
Qed.

Lemma upper_basic_fixed s :
  forallb basic_char s = true ->
  Forall (fun c => toupper_full c = [c]) (upper s).
Proof.
  induction s as [|c s IH]; [constructor|].
  cbn [forallb]. intros H. apply andb_true_iff in H. destruct H as [Hc Hs].
  rewrite upper_cons.
  destruct (toupper_basic_fixed _ Hc) as (c' & -> & Hfix).
  constructor; [exact Hfix|]. now apply IH.
Qed.

Lemma normalize_idempotent_basic s :
  forallb basic_char s = true -> normalize (normalize s) = normalize s.
Proof.
  intros H. unfold normalize at 1.
  assert (Hf : Forall (fun c => toupper_full c = [c]) (normalize s)).
  { apply upper_basic_fixed in H. rewrite Forall_forall in *.
    intros x Hx. apply H. unfold normalize in Hx.
    now do 2 apply remove_char_incl in Hx. }
  rewrite (upper_fixed Hf). unfold normalize.
  rewrite (remove_char_comm SPACE HYPHEN). now rewrite !remove_char_idem.
Qed.

(** On an input of Basic Latin and Cyrillic letters U+0410 to U+044F,
    normalizing twice is normalizing once, and the normalized plate gets
    the result of the input. *)
Theorem normalized_plate_same_result (s : str) :
  forallb basic_char s = true ->
  normalize (normalize s) = normalize s /\
  validate_russian_plate (normalize s) = validate_russian_plate s.
Proof.
  intros H. pose proof (normalize_idempotent_basic _ H) as E.
  split; [exact E|]. unfold validate_russian_plate. now rewrite E.
Qed.

(** X2. Two inputs of Basic Latin and Cyrillic letters U+0410 to U+044F
    that differ only in the case of their letters get the same normalized
    plate and the same result; so an input gets the result of itself
    written in upper case. *)
Theorem case_ignored (s1 s2 : str) :
  forallb basic_char s1 = true ->
  forallb basic_char s2 = true ->
  map capital s1 = map capital s2 ->
  normalize s1 = normalize s2 /\
  validate_russian_plate s1 = validate_russian_plate s2.
Proof.
  intros H1 H2 E.
  assert (En : normalize s1 = normalize s2)
    by now rewrite (normalize_capital _ H1), (normalize_capital _ H2), E.
  split; [exact En|]. unfold validate_russian_plate. now rewrite En.
Qed.

(** X3. Each pattern accepts exactly the strings of its fixed-width
    shapes, each optionally followed by one newline. *)
Theorem pattern_shapes (t : plate_kind) (p : str) :
  re_match (pattern t) p = existsb (fun sh => fits sh p) (shapes t).
Proof. exact (matches_shapes t p). Qed.

(** X4. Two different patterns accept one string only if they are the
    taxi and the trailer pattern. *)
Theorem patterns_disjoint_except_taxi_trailer (t1 t2 : plate_kind) (p : str) :
  matches t1 p = true -> matches t2 p = true ->
  t1 = t2 \/ (t1 = Taxi /\ t2 = Trailer) \/ (t1 = Trailer /\ t2 = Taxi).
Proof.
  intros H1 H2. pose proof (matches_disjoint _ _ _ H1 H2) as H.
  destruct t1, t2; cbn in H; try discriminate; auto.
Qed.

Lemma returned_type s r t :
  validate_russian_plate s = Return r -> plate_type r = Some t ->
  first_match (normalize s) = Some t /\
  r = valid_result t (spec_region t (normalize s)).
Proof.
  rewrite validate_russian_plate_eq.
  destruct (first_match (normalize s)) as [t0|];
    intros [= <-]; cbn; intros [= <-]; auto.
Qed.

(** X5. A plate returned with a type has a normalized length in the range
    of that type: standard 8 to 10, taxi 7 to 9, trailer 9 to 10,
    motorcycle 8 to 10, transit 7 to 8, diplomatic 6 to 9; so every plate
    found valid has 6 to 10 characters after normalization. *)
Theorem valid_plate_length (s : str) (r : result) (t : plate_kind) :
  validate_russian_plate s = Return r ->
  plate_type r = Some t ->
  (fst (length_range t) <= List.length (normalize s) <= snd (length_range t)
   /\ 6 <= List.length (normalize s) <= 10)%nat.
Proof.
  intros Hr Ht. destruct (returned_type _ Hr Ht) as [E _].
  destruct (first_match_some _ E) as [Hm Hmin].
  assert (Htaxi : t = Trailer -> matches Taxi (normalize s) = false)
    by (intros ->; apply Hmin; cbn; lia).
  destruct (matches_fits _ _ Hm) as (sh & Hin & Hf).
  destruct t; cbn in Hin;
    repeat match goal with
           | H : _ \/ _ |- _ => destruct H
           | H : False |- _ => destruct H
           end; subst sh;
    pose proof (fits_length _ _ Hf) as Hlen; cbn in Hlen |- *; try lia.
  exfalso. specialize (Htaxi eq_refl).
  rewrite (fits_matches Taxi [L;L;D;D;D;D;D;D]) in Htaxi;
    [discriminate|cbn; auto|exact Hf].
Qed.

Lemma fits_plate_chars sh : forall p,
  Forall (fun k => match k with
                   | C c => mem c plate_letters || (c =? DE) = true
                   | _ => True
                   end) sh ->
  fits sh p = true -> forallb plate_char p = true.
Proof.
  induction sh as [|a sh IH]; intros p Hsh Hf.
  - apply fits_nil in Hf. destruct Hf as [-> | ->]; [reflexivity|].
    cbn. unfold plate_char. rewrite N.eqb_refl.
    now rewrite orb_true_r.
  - apply fits_cons in Hf. destruct Hf as (c & q & -> & Hc & Hf).
    inversion Hsh as [|? ? Ha Hsh']; subst.
    cbn [forallb]. rewrite (IH _ Hsh' Hf), andb_true_r.
    unfold plate_char. destruct a as [| |x]; cbn [tok_ok] in Hc.
    + now rewrite Hc.
    + rewrite Hc. now rewrite orb_true_r.
    + apply N.eqb_eq in Hc. subst x.
      apply orb_true_iff in Ha. destruct Ha as [Ha|Ha]; rewrite Ha;
        rewrite ?orb_true_r; reflexivity.
Qed.

(** X6. A plate found valid consists, after normalization, of plate
    letters, decimal digits, the letter DE and newlines only. *)
Theorem valid_plate_alphabet (s : str) (r : result) :
  validate_russian_plate s = Return r ->
  is_valid r = true ->
  forallb plate_char (normalize s) = true.
Proof.
  rewrite validate_russian_plate_eq.
  destruct (first_match (normalize s)) as [t|] eqn:E;
    intros [= <-]; [intros _|discriminate].
  destruct (first_match_some _ E) as [Hm _].
  destruct (matches_fits _ _ Hm) as (sh & Hin & Hf).
  eapply fits_plate_chars; [|exact Hf].
  destruct t; cbn in Hin;
    repeat match goal with
           | H : _ \/ _ |- _ => destruct H
           | H : False |- _ => destruct H
           end; subst sh; repeat constructor.
Qed.

End ClassifierProperties.

(** ** The region code *)

Section RegionCode.
Context {U : UnicodeDB}.

Lemma last_chars_suffix n p :
  exists pre, p = (pre ++ last_chars n p)%list.
Proof.
  exists (firstn (List.length p - n) p). unfold last_chars.
  now rewrite firstn_skipn.
Qed.

Lemma substring_after_suffix sep p :
  exists pre, p = (pre ++ substring_after sep p)%list.
Proof.
  induction p as [|c p [pre IH]].
  - now exists [].
  - cbn. destruct (c =? sep).
    + now exists [c].
    + exists (c :: pre). cbn. now rewrite <- IH.
Qed.

Lemma spec_region_suffix t p region :
  spec_region t p = Some region -> exists pre, p = (pre ++ region)%list.
Proof.
  destruct t; cbn; unfold region_exactly_8, region_at_most_8;
    intros [= <-];
    try match goal with
        | |- context [if ?b then _ else _] => destruct b
        end;
    apply last_chars_suffix || apply substring_after_suffix.
Qed.

Lemma region_length_of_match t p region :
  matches t p = true ->
  spec_region t p = Some region ->
  (2 <= List.length region <= 4)%nat.
Proof.
  intros Hm Hreg.
  apply matches_fits in Hm. destruct Hm as (sh & Hin & Hf).
  destruct t; cbn in Hin;
    repeat match goal with
           | H : _ \/ _ |- _ => destruct H
           | H : False |- _ => destruct H
           end; subst sh;
    repeat (let c := fresh "c" in
            let q := fresh "q" in
            let Hc := fresh "Hc" in
            apply fits_cons in Hf; destruct Hf as (c & q & -> & Hc & Hf);
            cbn [tok_ok] in Hc);
    apply fits_nil in Hf; destruct Hf as [-> | ->];
    try discriminate Hreg;
    repeat match goal with
           | H : (DE =? ?c) = true |- _ => apply N.eqb_eq in H; subst c
           end;
    cbn in Hreg;
    repeat match goal with
           | H : isdecimal ?c = true |- _ =>
               rewrite ?(digit_not_DE _ H) in Hreg; clear H
           end;
    cbn in Hreg; injection Hreg as <-; cbn [List.length]; lia.
Qed.

(** X7. A result has no region code exactly when it is the invalid result
    or a transit plate; a region code that is present is the last 2 to 4
    characters of the normalized plate. *)
Theorem region_code_shape (s : str) (r : result) :
  validate_russian_plate s = Return r ->
  (region_code r = None <->
   is_valid r = false \/ plate_type r = Some Transit) /\
  (forall region, region_code r = Some region ->
     (exists pre, normalize s = (pre ++ region)%list) /\
     (2 <= List.length region <= 4)%nat).
Proof.
  rewrite validate_russian_plate_eq.
  destruct (first_match (normalize s)) as [t|] eqn:E; intros [= <-].
  - destruct (first_match_some _ E) as [Hm _]. cbn. split.
    + destruct t; cbn; split; try discriminate; auto;
        intros [H|H]; discriminate.
    + intros region Hreg. split.
      * exact (spec_region_suffix _ _ Hreg).
      * exact (region_length_of_match _ _ Hm Hreg).
  - cbn. split; [split; auto|]. discriminate.
Qed.

(** X8. Unless the normalized plate ends in a newline, a region code that
    is present is two or three decimal digits. *)
Theorem region_code_digits (s : str) (r : result) (region : str) :
  validate_russian_plate s = Return r ->
  region_code r = Some region ->
  last (normalize s) 0 <> NEWLINE ->
  (List.length region = 2 \/ List.length region = 3)%nat /\
  forallb isdecimal region = true.
Proof. exact (@region_digits_without_newline U s r region). Qed.

End RegionCode.

(** * Properties of the endpoints *)

Section Strip.
Context {U : UnicodeDB}.

Lemma lstrip_split s :
  exists pre, s = (pre ++ lstrip s)%list /\ forallb isspace pre = true.
Proof.
  induction s as [|c s (pre & E & Hpre)]; [now exists []|].
  cbn [lstrip]. destruct (isspace c) eqn:Ec.
  - exists (c :: pre). cbn. rewrite Ec, Hpre. now rewrite <- E.
  - now exists [].
Qed.

Lemma lstrip_head s : forall c q, lstrip s = c :: q -> isspace c = false.
Proof.
  induction s as [|x s IH]; intros c q; [discriminate|].
  cbn [lstrip]. destruct (isspace x) eqn:Ex; [apply IH|].
  now intros [= <- _].
Qed.

Lemma lstrip_fixed c q : isspace c = false -> lstrip (c :: q) = c :: q.
Proof. cbn. now intros ->. Qed.

Lemma lstrip_spaces s : forallb isspace s = true -> lstrip s = [].
Proof.
  induction s as [|c s IH]; [reflexivity|]. cbn.
  intros H. apply andb_true_iff in H. destruct H as [-> Hs]. now apply IH.
Qed.

Lemma forallb_rev (f : char -> bool) l :
  forallb f l = true -> forallb f (rev l) = true.
Proof.
  rewrite !forallb_forall. intros H x Hx. apply H. now apply in_rev.
Qed.

(** [strip()] cuts whitespace off both ends and nothing else. *)
Lemma strip_split s :
  exists pre post,
    s = (pre ++ strip s ++ post)%list /\
    forallb isspace pre = true /\ forallb isspace post = true.
Proof.
  destruct (lstrip_split s) as (pre & E1 & Hpre).
  destruct (lstrip_split (rev (lstrip s))) as (post & E2 & Hpost).
  exists pre, (rev post). unfold strip.
  split; [|split; [exact Hpre|now apply forallb_rev]].
  rewrite <- rev_app_distr, <- E2, rev_involutive. exact E1.
Qed.

Lemma strip_trimmed s : trimmed (strip s).
Proof.
  destruct (strip s) as [|c q] eqn:E; [exact I|].
  cbn [trimmed]. split.
  - destruct (strip_split s) as (pre & post & Es & _ & _).
    destruct (lstrip_split s) as (pre' & E1 & _).
    unfold strip in E.
    destruct (lstrip_split (rev (lstrip s))) as (post' & E2 & _).
    apply (f_equal (@rev char)) in E2.
    rewrite rev_involutive, rev_app_distr, E in E2.
    eapply lstrip_head. exact E2.
  - unfold strip in E.
    destruct (lstrip (rev (lstrip s))) as [|x b] eqn:Eb; [discriminate|].
    cbn [rev] in E. rewrite <- E, last_last.
    eapply lstrip_head. exact Eb.
Qed.

Lemma strip_of_trimmed p : trimmed p -> strip p = p.
Proof.
  destruct p as [|c q]; [reflexivity|]. intros [Hc Hl].
  unfold strip. rewrite lstrip_fixed by exact Hc.
  rewrite (app_removelast_last c (l := c :: q)) by discriminate.
  rewrite rev_unit, lstrip_fixed by exact Hl.
  now rewrite <- rev_unit, rev_involutive.
Qed.

Lemma strip_idempotent s : strip (strip s) = strip s.
Proof. apply strip_of_trimmed, strip_trimmed. Qed.

Lemma strip_nil_iff s : strip s = [] <-> forallb isspace s = true.
Proof.
  split.
  - intros E. destruct (strip_split s) as (pre & post & Es & Hpre & Hpost).
    rewrite E in Es. rewrite Es, forallb_app, Hpre. exact Hpost.
  - intros H. unfold strip.
    assert (E : lstrip s = []) by now apply lstrip_spaces.
    rewrite E. reflexivity.
Qed.

Lemma strip_incl s x : In x (strip s) -> In x s.
Proof.
  intros H. destruct (strip_split s) as (pre & post & Es & _ & _).
  rewrite Es. apply in_or_app. right. apply in_or_app. now left.
Qed.

Lemma strip_length s : (List.length (strip s) <= List.length s)%nat.
Proof.
  destruct (strip_split s) as (pre & post & Es & _ & _).
  rewrite Es at 2. rewrite !length_app. lia.
Qed.

Lemma validate_plate_number_some v p :
  validate_plate_number v = Some p -> p = strip v /\ p <> [].
Proof.
  unfold validate_plate_number.
  destruct (_ || _)%bool; [discriminate|].
  destruct (strip v); [discriminate|]. intros [= <-]. split; congruence.
Qed.

(** X9. The validator of the request body rejects exactly the bodies
    longer than 20 characters and the bodies of whitespace only (the
    empty one among them); the plate it passes on is the body without its
    leading and trailing whitespace, is not empty, and is accepted
    unchanged when sent again. *)
Theorem validate_plate_number_spec (v : str) :
  (validate_plate_number v = None <->
   (20 < List.length v)%nat \/ forallb isspace v = true) /\
  (forall p, validate_plate_number v = Some p ->
     p = strip v /\ p <> [] /\ (List.length p <= 20)%nat /\ trimmed p /\
     validate_plate_number p = Some p).
Proof.
  unfold validate_plate_number.
  destruct (Nat.ltb_spec (List.length v) 1) as [H1|H1];
    destruct (Nat.ltb_spec 20 (List.length v)) as [H20|H20]; cbn [orb].
  - lia.
  - split; [|discriminate]. split; [|reflexivity]. intros _. right.
    destruct v; [reflexivity|cbn in H1; lia].
  - split; [|discriminate]. split; auto.
  - destruct (strip v) as [|c q] eqn:E.
    + split; [|discriminate]. split; [|reflexivity]. intros _. right.
      now apply strip_nil_iff.
    + split.
      * split; [discriminate|]. intros [H|H]; [lia|].
        apply strip_nil_iff in H. congruence.
      * intros p [= <-].
        pose proof (strip_length v) as Hlen. rewrite E in Hlen.
        pose proof (strip_trimmed v) as Ht. rewrite E in Ht.
        split; [reflexivity|]. split; [discriminate|].
        split; [lia|]. split; [exact Ht|].
        rewrite strip_of_trimmed by exact Ht.
        destruct (Nat.ltb_spec (List.length (c :: q)) 1) as [H|H];
          [cbn in H; lia|].
        destruct (Nat.ltb_spec 20 (List.length (c :: q))) as [H'|H'];
          [lia|reflexivity].
Qed.

Lemma split_no_sep sep s : forall w, In w (split sep s) -> ~ In sep w.
Proof.
  induction s as [|c s IH]; intros w Hw.
  - cbn in Hw. destruct Hw as [<-|[]]. exact (fun H => H).
  - cbn [split] in Hw. destruct (c =? sep) eqn:E.
    + destruct Hw as [<-|Hw]; [exact (fun H => H)|now apply IH].
    + destruct (split sep s) as [|w0 ws] eqn:Es.
      * destruct Hw as [<-|[]]. intros [H|[]]. subst.
        rewrite N.eqb_refl in E. discriminate.
      * destruct Hw as [<-|Hw].
        -- intros [H|H]; [subst; rewrite N.eqb_refl in E; discriminate|].
           exact (IH w0 (or_introl eq_refl) H).
        -- apply IH. now right.
Qed.

Lemma plate_list_of_entries (plates plate : str) :
  In plate (plate_list_of plates) ->
  plate <> [] /\ ~ In COMMA plate /\ trimmed plate /\ strip plate = plate.
Proof.
  unfold plate_list_of. intros H.
  apply in_map_iff in H. destruct H as (w & <- & Hw).
  apply filter_In in Hw. destruct Hw as [Hw Hne].
  split; [|split; [|split]].
  - destruct (strip w); [discriminate|discriminate].
  - intros Hc. apply strip_incl in Hc. eapply split_no_sep; eassumption.
  - apply strip_trimmed.
  - apply strip_idempotent.
Qed.

(** X10. Every plate of the list the batch endpoint builds is not empty,
    has no comma in it, and has no whitespace at its ends. *)
Theorem plate_list_entries (plates plate : str) :
  In plate (plate_list_of plates) ->
  plate <> [] /\ ~ In COMMA plate /\ trimmed plate /\ strip plate = plate.
Proof. exact (plate_list_of_entries plates plate). Qed.

End Strip.

Section EndpointProperties.
Context {U : UnicodeDB}.
Local Open Scope Z_scope.

Lemma record_of_returns plate :
  exists r,
    validate_russian_plate plate = Return r /\
    record_of plate = make_response (normalize plate) r.
Proof.
  unfold record_of.
  destruct (validate_russian_plate_returns plate) as [r E].
  rewrite E. eauto.
Qed.

Lemma validate_license_plate_body_eq plate st :
  validate_license_plate_body plate st =
  (Plate200 (record_of plate),
   count_result (Response.is_valid (record_of plate)) st).
Proof.
  unfold validate_license_plate_body, record_of.
  destruct (validate_russian_plate_returns plate) as [r ->].
  now rewrite update_stats_count.
Qed.

Lemma validate_each_eq plate_list : forall results st,
  validate_each plate_list results st =
  ((results ++ map record_of plate_list)%list,
   fold_left (fun st plate =>
                count_result (Response.is_valid (record_of plate)) st)
             plate_list st).
Proof.
  induction plate_list as [|plate rest IH]; intros results st.
  - cbn. now rewrite app_nil_r.
  - destruct (record_of_returns plate) as (r & E & Hrec).
    cbn [validate_each map fold_left]. rewrite E, IH, Hrec.
    rewrite <- app_assoc, update_stats_count. reflexivity.
Qed.

(** What a request answers and does to the counters, by the plates it
    classifies. *)
Lemma handle_classified req st :
  records (fst (handle req st)) = map record_of (classified req) /\
  snd (handle req st) =
    fold_left (fun st plate =>
                 count_result (Response.is_valid (record_of plate)) st)
              (classified req) st.
Proof.
  destruct req as [body|plate|plates|]; cbn [handle classified].
  - unfold validate_license_plate.
    destruct (validate_plate_number body); [|auto].
    rewrite validate_license_plate_body_eq. auto.
  - unfold get_license_plate_info.
    destruct (strip plate); [auto|].
    rewrite validate_license_plate_body_eq. auto.
  - unfold validate_multiple_plates.
    destruct (plate_list_of plates) as [|x l]; [auto|].
    destruct (Nat.ltb 10 (List.length (x :: l))); [auto|].
    rewrite validate_each_eq. auto.
  - auto.
Qed.

Lemma classified_length req : (List.length (classified req) <= 10)%nat.
Proof.
  destruct req as [body|plate|plates|]; cbn [classified].
  - destruct (validate_plate_number body); cbn; lia.
  - destruct (strip plate); cbn; lia.
  - destruct (Nat.ltb_spec 10 (List.length (plate_list_of plates)));
      cbn; lia.
  - cbn. lia.
Qed.

Lemma fold_count_eq bs : forall st,
  fold_left (fun st b => count_result b st) bs st =
  {| total := total st + Z.of_nat (List.length bs);
     valid := valid st + how_many true bs;
     invalid := invalid st + how_many false bs |}.
Proof.
  unfold how_many. induction bs as [|b bs IH]; intros st.
  - destruct st. cbn. f_equal; lia.
  - cbn [fold_left]. rewrite IH. destruct b; cbn; f_equal; lia.
Qed.

Lemma fold_records_eq (l : list str) st :
  fold_left (fun st plate =>
               count_result (Response.is_valid (record_of plate)) st) l st
  = fold_left (fun st b => count_result b st)
      (map (fun plate => Response.is_valid (record_of plate)) l) st.
Proof.
  revert st. induction l as [|x l IH]; intros st; [reflexivity|].
  cbn. apply IH.
Qed.

(** X11. The only error answers of the endpoints are 400s, given for a
    blank path plate or for a batch of no plate or of more than ten, and
    they leave the counters as they were: no request is answered 500. *)
Theorem error_answers_are_400 (req : request) (st : stats)
  (status_code : Z) (detail : str) :
  fst (handle req st) = HTTPException status_code detail ->
  status_code = 400 /\
  snd (handle req st) = st /\
  match req with
  | GetPlate plate_number => forallb isspace plate_number = true
  | GetPlates plates =>
      plate_list_of plates = [] \/
      (10 < List.length (plate_list_of plates))%nat
  | _ => False
  end.
Proof.
  assert (Hcode : forall c d (s' : stats),
            fst (HTTPException c d, s') = HTTPException status_code detail ->
            status_code = c).
  { intros c d s' H.
    apply (f_equal (fun a => match a with
                             | HTTPException x _ => x
                             | _ => status_code
                             end)) in H.
    cbv beta iota delta [fst] in H. now symmetry. }
  destruct req as [body|plate|plates|]; cbn [handle].
  - unfold validate_license_plate.
    destruct (validate_plate_number body); [|discriminate].
    rewrite validate_license_plate_body_eq. discriminate.
  - unfold get_license_plate_info.
    destruct (strip plate) eqn:E.
    + intros H. apply Hcode in H. repeat split; [exact H|].
      now apply strip_nil_iff.
    + rewrite validate_license_plate_body_eq. discriminate.
  - unfold validate_multiple_plates.
    destruct (plate_list_of plates) as [|x l] eqn:E.
    + intros Hx. apply Hcode in Hx. auto.
    + destruct (Nat.ltb_spec 10 (List.length (x :: l))).
      * intros Hx. apply Hcode in Hx. auto.
      * rewrite validate_each_eq. discriminate.
  - discriminate.
Qed.

(** X12. Every record an endpoint answers with is the classifier's result
    for a plate of the request, with the normalized plate echoed: the
    per-item error record of the batch loop is never produced, and the
    echoed plate has no space and no hyphen. *)
Theorem records_are_classifications (req : request) (st : stats)
  (record : Response.t) :
  In record (records (fst (handle req st))) ->
  exists plate r,
    In plate (classified req) /\
    validate_russian_plate plate = Return r /\
    record = make_response (normalize plate) r /\
    ~ In SPACE (Response.plate_number record) /\
    ~ In HYPHEN (Response.plate_number record).
Proof.
  rewrite (proj1 (handle_classified req st)).
  intros H. apply in_map_iff in H. destruct H as (plate & <- & Hin).
  destruct (record_of_returns plate) as (r & Hr & ->).
  exists plate, r. cbn. destruct (normalize_clean plate). auto.
Qed.

(** X13. A request moves no counter down, and moves [total] up by the
    number of plates it classifies: one for a POST body the validator
    accepts and for a GET plate that is not blank, the length of the list
    for a batch of one to ten plates, none otherwise; so by at most
    ten. *)
Theorem request_counts_at_most_10 (req : request) (st : stats) :
  total (snd (handle req st)) =
    total st + Z.of_nat (List.length (classified req)) /\
  (List.length (classified req) <= 10)%nat /\
  total st <= total (snd (handle req st)) <= total st + 10 /\
  valid st <= valid (snd (handle req st)) /\
  invalid st <= invalid (snd (handle req st)).
Proof.
  rewrite (proj2 (handle_classified req st)).
  rewrite fold_records_eq, fold_count_eq. cbn.
  rewrite !length_map. pose proof (classified_length req).
  unfold how_many. lia.
Qed.

Lemma split_without_sep sep s : ~ In sep s -> split sep s = [s].
Proof.
  induction s as [|c s IH]; [reflexivity|].
  intros H. cbn [split].
  destruct (c =? sep)%N eqn:E.
  - apply N.eqb_eq in E. subst. exfalso. apply H. now left.
  - rewrite IH; [reflexivity|]. intros Hs. apply H. now right.
Qed.

(** X14. A plate the POST validator accepts unchanged is answered alike
    by POST /validate and by GET /{plate}; if it has no comma, the batch
    endpoint gives the same record as a list of one, and the same
    counters. *)
Theorem single_plate_endpoints_agree (plate : str) (st : stats) :
  validate_plate_number plate = Some plate ->
  handle (PostValidate plate) st = handle (GetPlate plate) st /\
  (~ In COMMA plate ->
   handle (GetPlates plate) st =
   (Plates200 (records (fst (handle (GetPlate plate) st))),
    snd (handle (GetPlate plate) st))).
Proof.
  intros Hv.
  destruct (validate_plate_number_some _ Hv) as (Es & Hne).
  assert (Hget : handle (GetPlate plate) st
                 = validate_license_plate_body plate st).
  { cbn [handle]. unfold get_license_plate_info. rewrite <- Es.
    destruct plate; [congruence|reflexivity]. }
  split.
  - rewrite Hget. cbn [handle]. unfold validate_license_plate.
    now rewrite Hv.
  - intros Hc. rewrite Hget, validate_license_plate_body_eq.
    cbn [handle fst snd records]. unfold validate_multiple_plates, plate_list_of.
    rewrite split_without_sep by exact Hc. cbn [filter]. rewrite <- Es.
    destruct plate as [|c q]; [congruence|].
    cbn [List.length Nat.eqb negb map]. rewrite <- Es.
    cbn [List.length Nat.ltb Nat.leb]. rewrite validate_each_eq.
    reflexivity.
Qed.

Lemma get_plate_eq plate st :
  strip plate <> [] ->
  handle (GetPlate plate) st =
  (Plate200 (record_of plate),
   count_result (Response.is_valid (record_of plate)) st).
Proof.
  intros H. cbn [handle]. unfold get_license_plate_info.
  destruct (strip plate); [congruence|].
  apply validate_license_plate_body_eq.
Qed.

Lemma gets_eq l : forall st,
  Forall (fun plate => strip plate <> []) l ->
  flat_map records (answers (map GetPlate l) st) = map record_of l /\
  serve (map GetPlate l) st =
    fold_left (fun st plate =>
                 count_result (Response.is_valid (record_of plate)) st) l st.
Proof.
  induction l as [|plate l IH]; intros st Hl; [auto|].
  inversion Hl as [|? ? Hp Hl']; subst.
  cbn [map answers serve flat_map fold_left].
  rewrite get_plate_eq by exact Hp. cbn [fst snd records].
  destruct (IH (count_result (Response.is_valid (record_of plate)) st) Hl')
    as [E1 E2].
  now rewrite E1, E2.
Qed.

(** X15. A batch of one to ten plates is answered with one record per
    plate, in the order of the plates, each echoing its normalized plate;
    the records and the counters are those of the single GET requests of
    the plates made one after the other. *)
Theorem batch_is_sequence_of_gets (plates : str) (st : stats) :
  plate_list_of plates <> [] ->
  (List.length (plate_list_of plates) <= 10)%nat ->
  exists results,
    handle (GetPlates plates) st =
      (Plates200 results, serve (map GetPlate (plate_list_of plates)) st) /\
    results =
      flat_map records (answers (map GetPlate (plate_list_of plates)) st) /\
    map Response.plate_number results = map normalize (plate_list_of plates).
Proof.
  intros Hne Hlen.
  assert (Hl : Forall (fun plate => strip plate <> []) (plate_list_of plates)).
  { apply Forall_forall. intros plate Hin.
    destruct (plate_list_of_entries _ _ Hin) as (Hp & _ & _ & E).
    congruence. }
  destruct (gets_eq st Hl) as [E1 E2].
  exists (map record_of (plate_list_of plates)).
  rewrite E1, E2. split; [|split; [reflexivity|]].
  - cbn [handle]. unfold validate_multiple_plates.
    destruct (plate_list_of plates) as [|x l] eqn:E; [congruence|].
    destruct (Nat.ltb_spec 10 (List.length (x :: l))); [lia|].
    now rewrite validate_each_eq.
  - rewrite map_map. apply map_ext. intros plate.
    destruct (record_of_returns plate) as (r & _ & ->). reflexivity.
Qed.

End EndpointProperties.

(** ** The counters over a sequence of requests *)

Section CounterProperties.
Context {U : UnicodeDB}.
Local Open Scope Z_scope.

Lemma serve_app reqs1 : forall reqs2 st,
  serve (reqs1 ++ reqs2) st = serve reqs2 (serve reqs1 st).
Proof.
  induction reqs1 as [|req reqs1 IH]; intros reqs2 st; [reflexivity|].
  cbn. apply IH.
Qed.

Lemma serve_answers reqs : forall st,
  serve reqs st =
  fold_left (fun st b => count_result b st)
    (flat_map validities (answers reqs st)) st.
Proof.
  induction reqs as [|req reqs IH]; intros st; [reflexivity|].
  cbn [serve answers flat_map]. rewrite fold_left_app, <- handle_counts.
  apply IH.
Qed.

Lemma serve_classified reqs : forall st,
  serve reqs st =
  fold_left (fun st b => count_result b st)
    (map (fun plate => Response.is_valid (record_of plate))
         (flat_map classified reqs)) st.
Proof.
  induction reqs as [|req reqs IH]; intros st; [reflexivity|].
  cbn [serve flat_map]. rewrite map_app, fold_left_app, IH.
  rewrite (proj2 (handle_classified req st)), fold_records_eq.
  reflexivity.
Qed.

Lemma record_of_is_valid plate :
  Response.is_valid (record_of plate) = plate_is_valid plate.
Proof.
  unfold record_of, plate_is_valid.
  now destruct (validate_russian_plate plate).
Qed.

(** X16. After any sequence of requests since the module was loaded, the
    counters are the numbers of the plates the handlers have classified:
    all of them, those found valid and those found invalid; and the
    statistics handler then returns these three numbers. *)
Theorem counters_count_classifications (reqs : list request) :
  let plates := flat_map classified reqs in
  let flags := map plate_is_valid plates in
  serve reqs validation_stats =
    {| total := Z.of_nat (List.length plates);
       valid := how_many true flags;
       invalid := how_many false flags |} /\
  fst (handle GetStats (serve reqs validation_stats)) =
    Stats200 {| total_validated := Z.of_nat (List.length plates);
                valid_plates := how_many true flags;
                invalid_plates := how_many false flags |}.
Proof.
  cbv zeta. rewrite serve_classified, fold_count_eq.
  rewrite (map_ext _ _ record_of_is_valid), length_map. cbn. auto.
Qed.

(** X17. The counters after a sequence of requests do not depend on the
    order in which the requests were served. *)
Theorem serve_order_irrelevant (reqs reqs' : list request) (st : stats) :
  Permutation reqs reqs' -> serve reqs st = serve reqs' st.
Proof.
  intros H. rewrite !serve_classified, !fold_count_eq.
  assert (P : Permutation
                (map (fun plate => Response.is_valid (record_of plate))
                     (flat_map classified reqs))
                (map (fun plate => Response.is_valid (record_of plate))
                     (flat_map classified reqs'))).
  { apply Permutation_map. now apply Permutation_flat_map. }
  unfold how_many.
  rewrite (Permutation_length P).
  pose proof (proj1 (Permutation_count_occ Bool.bool_dec _ _) P) as Hc.
  now rewrite !Hc.
Qed.

Lemma reachable_serve reqs : forall st,
  reachable st -> reachable (serve reqs st).
Proof.
  induction reqs as [|req reqs IH]; intros st H; [exact H|].
  cbn. apply IH. apply (reach_step H). now exists req.
Qed.

(** The reachable states of the counters are exactly the states
    after serving a list of requests from the initial counters. *)
Theorem reachable_iff_served (st : stats) :
  reachable st <-> exists reqs, st = serve reqs validation_stats.
Proof.
  split.
  - induction 1 as [|st st' _ [reqs IH] [req Hstep]].
    + now exists [].
    + exists (reqs ++ [req])%list. rewrite serve_app, <- IH. cbn.
      now symmetry.
  - intros [reqs ->]. apply reachable_serve. constructor.
Qed.

End CounterProperties.

(** ** The trimming of the request body *)

Section BodyTrimming.
Context {U : UnicodeDB}.
Local Open Scope Z_scope.

Lemma validate_plate_number_strip v :
  (List.length v <= 20)%nat ->
  validate_plate_number (strip v) = validate_plate_number v.
Proof.
  intros Hlen. unfold validate_plate_number.
  rewrite strip_idempotent.
  pose proof (strip_length v) as Hs.
  destruct (strip v) as [|c q] eqn:E.
  - cbn. now destruct (_ || _)%bool.
  - destruct (Nat.ltb_spec (List.length (c :: q)) 1) as [H|H];
      [cbn in H; lia|].
    destruct (Nat.ltb_spec 20 (List.length (c :: q))) as [H'|H']; [lia|].
    destruct (Nat.ltb_spec (List.length v) 1) as [H1|H1].
    + destruct v; [discriminate E|cbn in H1; lia].
    + destruct (Nat.ltb_spec 20 (List.length v)); [lia|reflexivity].
Qed.

(** X19. POST /validate answers a body of at most 20 characters as it
    answers that body without its leading and trailing whitespace. *)
Theorem post_ignores_outer_whitespace (body : str) (st : stats) :
  (List.length body <= 20)%nat ->
  handle (PostValidate body) st = handle (PostValidate (strip body)) st.
Proof.
  intros H. cbn [handle]. unfold validate_license_plate.
  now rewrite (validate_plate_number_strip _ H).
Qed.

End BodyTrimming.

(** ** The further properties at concrete requests, on the basic database *)

Lemma post_ignores_outer_whitespace_witness :
  (List.length (u8 "  А123ВС77 ") <= 20)%nat /\
  @handle basic_db (PostValidate (u8 "  А123ВС77 ")) validation_stats
  = @handle basic_db (PostValidate (@strip basic_db (u8 "  А123ВС77 ")))
      validation_stats.
Proof.
  assert (H : (List.length (u8 "  А123ВС77 ") <= 20)%nat)
    by (vm_compute; lia).
  split; [exact H|].
  exact (@post_ignores_outer_whitespace basic_db _ validation_stats H).
Defined.

Lemma case_ignored_witness :
  forallb basic_char (u8 "а123вс77") = true /\
  forallb basic_char (u8 "А123ВС77") = true /\
  map capital (u8 "а123вс77") = map capital (u8 "А123ВС77") /\
  @validate_russian_plate basic_db (u8 "а123вс77")
  = Return (valid_result Standard (Some (u8 "77"))).
Proof.
  assert (H1 : forallb basic_char (u8 "а123вс77") = true)
    by (vm_compute; reflexivity).
  assert (H2 : forallb basic_char (u8 "А123ВС77") = true)
    by (vm_compute; reflexivity).
  assert (E : map capital (u8 "а123вс77") = map capital (u8 "А123ВС77"))
    by (vm_compute; reflexivity).
  do 3 (split; [assumption|]).
  rewrite (proj2 (@case_ignored basic_db _ _ H1 H2 E)).
  vm_compute. reflexivity.
Defined.

Lemma separators_ignored_witness :
  remove_char HYPHEN (remove_char SPACE (u8 "А 123-ВС 77"))
  = remove_char HYPHEN (remove_char SPACE (u8 "А123ВС77")) /\
  @validate_russian_plate basic_db (u8 "А 123-ВС 77")
  = @validate_russian_plate basic_db (u8 "А123ВС77").
Proof.
  split; [vm_compute; reflexivity|].
  apply (@separators_ignored basic_db). vm_compute; reflexivity.
Defined.

Lemma normalized_plate_same_result_witness :
  forallb basic_char (u8 "а123вс77") = true /\
  @validate_russian_plate basic_db (@normalize basic_db (u8 "а123вс77"))
  = @validate_russian_plate basic_db (u8 "а123вс77").
Proof.
  split; [vm_compute; reflexivity|].
  apply (@normalized_plate_same_result basic_db). vm_compute; reflexivity.
Defined.

Lemma patterns_disjoint_except_taxi_trailer_witness :
  @matches basic_db Taxi (u8 "АВ123477") = true /\
  @matches basic_db Trailer (u8 "АВ123477") = true /\
  (Taxi = Trailer \/ (Taxi = Taxi /\ Trailer = Trailer) \/
   (Taxi = Trailer /\ Trailer = Taxi)).
Proof.
  split; [vm_compute; reflexivity|]. split; [vm_compute; reflexivity|].
  apply (@patterns_disjoint_except_taxi_trailer basic_db Taxi Trailer
           (u8 "АВ123477")); vm_compute; reflexivity.
Defined.

Lemma valid_plate_length_witness :
  @validate_russian_plate basic_db (u8 "АВ1234777")
  = Return (valid_result Trailer (Some (u8 "777"))) /\
  (9 <= List.length (@normalize basic_db (u8 "АВ1234777")) <= 10)%nat.
Proof.
  assert (H : @validate_russian_plate basic_db (u8 "АВ1234777")
              = Return (valid_result Trailer (Some (u8 "777"))))
    by (vm_compute; reflexivity).
  split; [exact H|].
  exact (proj1 (@valid_plate_length basic_db _ _ Trailer H eq_refl)).
Defined.

Lemma valid_plate_alphabet_witness :
  @validate_russian_plate basic_db (u8 "А123ВС77")
  = Return (valid_result Standard (Some (u8 "77"))) /\
  forallb (@plate_char basic_db) (@normalize basic_db (u8 "А123ВС77")) = true.
Proof.
  assert (H : @validate_russian_plate basic_db (u8 "А123ВС77")
              = Return (valid_result Standard (Some (u8 "77"))))
    by (vm_compute; reflexivity).
  split; [exact H|].
  exact (@valid_plate_alphabet basic_db _ _ H eq_refl).
Defined.

Lemma region_code_shape_witness :
  @validate_russian_plate basic_db (u8 "123Д77")
  = Return (valid_result Diplomatic (Some (u8 "77"))) /\
  (exists pre, @normalize basic_db (u8 "123Д77") = (pre ++ u8 "77")%list) /\
  (2 <= List.length (u8 "77") <= 4)%nat.
Proof.
  assert (H : @validate_russian_plate basic_db (u8 "123Д77")
              = Return (valid_result Diplomatic (Some (u8 "77"))))
    by (vm_compute; reflexivity).
  split; [exact H|].
  exact (proj2 (@region_code_shape basic_db _ _ H) (u8 "77") eq_refl).
Defined.

Lemma region_code_digits_witness :
  @validate_russian_plate basic_db (u8 "А123ВС777")
  = Return (valid_result Standard (Some (u8 "777"))) /\
  last (@normalize basic_db (u8 "А123ВС777")) 0%N <> NEWLINE /\
  forallb (@isdecimal basic_db) (u8 "777") = true.
Proof.
  assert (H : @validate_russian_plate basic_db (u8 "А123ВС777")
              = Return (valid_result Standard (Some (u8 "777"))))
    by (vm_compute; reflexivity).
  assert (Hnl : last (@normalize basic_db (u8 "А123ВС777")) 0%N <> NEWLINE)
    by (vm_compute; discriminate).
  split; [exact H|]. split; [exact Hnl|].
  exact (proj2 (@region_code_digits basic_db _ _ (u8 "777") H eq_refl Hnl)).
Defined.

Lemma validate_plate_number_spec_witness :
  @validate_plate_number basic_db (u8 " А123ВС77 ") = Some (u8 "А123ВС77") /\
  @validate_plate_number basic_db (u8 "А123ВС77") = Some (u8 "А123ВС77").
Proof.
  assert (H : @validate_plate_number basic_db (u8 " А123ВС77 ")
              = Some (u8 "А123ВС77")) by (vm_compute; reflexivity).
  split; [exact H|].
  destruct (proj2 (@validate_plate_number_spec basic_db (u8 " А123ВС77 ")) _ H)
    as (_ & _ & _ & _ & E).
  exact E.
Defined.

Lemma plate_list_entries_witness :
  In (u8 "123Д77") (@plate_list_of basic_db (u8 "А123ВС77, 123Д77,,x")) /\
  ~ In COMMA (u8 "123Д77").
Proof.
  assert (H : In (u8 "123Д77")
                 (@plate_list_of basic_db (u8 "А123ВС77, 123Д77,,x")))
    by (vm_compute; auto).
  split; [exact H|].
  exact (proj1 (proj2 (@plate_list_entries basic_db _ _ H))).
Defined.

Lemma error_answers_are_400_witness :
  fst (@handle basic_db (GetPlate (u8 " ")) validation_stats)
  = HTTPException 400 (u8 "Номерной знак не может быть пустым") /\
  snd (@handle basic_db (GetPlate (u8 " ")) validation_stats)
  = validation_stats.
Proof.
  assert (H : fst (@handle basic_db (GetPlate (u8 " ")) validation_stats)
              = HTTPException 400 (u8 "Номерной знак не может быть пустым"))
    by (vm_compute; reflexivity).
  split; [exact H|].
  exact (proj1 (proj2 (@error_answers_are_400 basic_db _ _ _ _ H))).
Defined.

Lemma records_are_classifications_witness :
  In (make_response (u8 "А123ВС77") (valid_result Standard (Some (u8 "77"))))
     (records (fst (@handle basic_db (PostValidate (u8 " а123вс77"))
                      validation_stats))) /\
  exists plate r,
    @validate_russian_plate basic_db plate = Return r /\
    make_response (u8 "А123ВС77") (valid_result Standard (Some (u8 "77")))
    = make_response (@normalize basic_db plate) r.
Proof.
  assert (H : In (make_response (u8 "А123ВС77")
                    (valid_result Standard (Some (u8 "77"))))
                 (records (fst (@handle basic_db
                                  (PostValidate (u8 " а123вс77"))
                                  validation_stats))))
    by (vm_compute; auto).
  split; [exact H|].
  destruct (@records_are_classifications basic_db _ _ _ H)
    as (plate & r & _ & Hr & E & _).
  exists plate, r. auto.
Defined.

Lemma single_plate_endpoints_agree_witness :
  @validate_plate_number basic_db (u8 "А123ВС77") = Some (u8 "А123ВС77") /\
  @handle basic_db (PostValidate (u8 "А123ВС77")) validation_stats
  = @handle basic_db (GetPlate (u8 "А123ВС77")) validation_stats.
Proof.
  assert (H : @validate_plate_number basic_db (u8 "А123ВС77")
              = Some (u8 "А123ВС77")) by (vm_compute; reflexivity).
  split; [exact H|].
  exact (proj1 (@single_plate_endpoints_agree basic_db _ validation_stats H)).
Defined.

Lemma batch_is_sequence_of_gets_witness :
  @plate_list_of basic_db (u8 "А123ВС77,XYZZY") <> [] /\
  (List.length (@plate_list_of basic_db (u8 "А123ВС77,XYZZY")) <= 10)%nat /\
  exists results,
    @handle basic_db (GetPlates (u8 "А123ВС77,XYZZY")) validation_stats
    = (Plates200 results,
       @serve basic_db
         (map GetPlate (@plate_list_of basic_db (u8 "А123ВС77,XYZZY")))
         validation_stats).
Proof.
  assert (H1 : @plate_list_of basic_db (u8 "А123ВС77,XYZZY") <> [])
    by (vm_compute; discriminate).
  assert (H2 : (List.length (@plate_list_of basic_db (u8 "А123ВС77,XYZZY"))
                <= 10)%nat) by (vm_compute; lia).
  split; [exact H1|]. split; [exact H2|].
  destruct (@batch_is_sequence_of_gets basic_db _ validation_stats H1 H2)
    as (results & E & _).
  exists results. exact E.
Defined.

Lemma serve_order_irrelevant_witness :
  Permutation [PostValidate (u8 "А123ВС77"); GetPlate (u8 "XYZZY")]
              [GetPlate (u8 "XYZZY"); PostValidate (u8 "А123ВС77")] /\
  @serve basic_db [PostValidate (u8 "А123ВС77"); GetPlate (u8 "XYZZY")]
    validation_stats
  = @serve basic_db [GetPlate (u8 "XYZZY"); PostValidate (u8 "А123ВС77")]
      validation_stats.
Proof.
  assert (H : Permutation
                [PostValidate (u8 "А123ВС77"); GetPlate (u8 "XYZZY")]
                [GetPlate (u8 "XYZZY"); PostValidate (u8 "А123ВС77")])
    by apply perm_swap.
  split; [exact H|].
  exact (@serve_order_irrelevant basic_db _ _ validation_stats H).
Defined.

Lemma reachable_iff_served_witness :
  @reachable basic_db
    (@serve basic_db [PostValidate (u8 "А123ВС77")] validation_stats).
Proof.
  apply (proj2 (@reachable_iff_served basic_db _)).
  exists [PostValidate (u8 "А123ВС77")]. reflexivity.
Defined.
